(** * Lequel: trigram-based language identification (src/Lequel.cpp)

    A shallow embedding of the four functions of [Lequel.cpp]
    ([buildTrigramProfile], [normalizeTrigramProfile],
    [getCosineSimilarity], [identifyLanguage]) and the properties the
    specification states about them.

    Modelling choices, all read off the source:
    - [std::string] is a Rocq [string] (a sequence of 8-bit characters);
    - [std::wstring] is a list of [wchar_t] units;
    - [float] is IEEE-754 binary32, through the parameterised operations
      of the standard library's [SpecFloat] at precision 24 and maximal
      exponent 128, every operation rounded to binary32 (no excess
      precision, no fused multiply-add);
    - a C++ exception leaving a function is an explicit [Throw] result;
    - the UTF-8 converter ([std::wstring_convert]) is library code: the
      development is parameterised by its two conversion functions, and
      models of the two facets the source uses instantiate it;
    - the source holds two copies of the file (lines 1-124 and 126-270),
      which differ in the converter facet (lines 28 and 158) and in the
      bytes of the message literal (lines 121 and 267): both are
      parameters of the embedding. *)

From Stdlib Require Import List String Ascii Bool Arith ZArith NArith Lia.
From Stdlib Require Import Permutation.
From Stdlib Require Import SpecFloat.
From Stdlib Require OrderedTypeEx.
Import ListNotations.

Local Open Scope string_scope.
Local Open Scope list_scope.

(** ** binary32 arithmetic *)

Module Float32.

Definition prec : Z := 24.
Definition emax : Z := 128.

Definition float : Type := spec_float.

(** The literals [0] and [1] converted to [float]. *)
Definition zero : float := S754_zero false.
Definition one : float := Eval cbv in SFone prec emax.

Definition add : float -> float -> float := SFadd prec emax.
Definition mul : float -> float -> float := SFmul prec emax.
Definition div : float -> float -> float := SFdiv prec emax.
Definition sqrt : float -> float := SFsqrt prec emax.

(** [a > b] in C++ is [ltb b a]; a comparison with a NaN is false. *)
Definition ltb : float -> float -> bool := SFltb.

Definition is_finite (x : float) : bool :=
  match x with
  | S754_zero _ | S754_finite _ _ _ => true
  | S754_infinity _ | S754_nan => false
  end.

(** Conversion of an integer literal, used to write example profiles. *)
Definition of_Z (z : Z) : float := binary_normalize prec emax z 0 false.

End Float32.

Import Float32.

(** ** Exceptions and results

    The only exceptions the code can raise come from the library calls
    it makes. *)

Inductive exception : Type :=
| range_error   (* std::range_error: wstring_convert, conversion failed *)
| out_of_range. (* std::out_of_range: basic_string::substr, pos > size() *)

Inductive result (A : Type) : Type :=
| Ok (a : A)
| Throw (e : exception).

Arguments Ok {A} a.
Arguments Throw {A} e.

Definition bind {A B : Type} (r : result A) (k : A -> result B) : result B :=
  match r with
  | Ok a => k a
  | Throw e => Throw e
  end.

Notation "x <- r ;; k" := (bind r (fun x => k))
  (at level 61, r at next level, right associativity).

(** ** [std::map<std::string, float>]

    Modelled from the spec: [Lequel.h], which declares [TrigramProfile],
    [LanguageProfile], [LanguageProfiles] and [Text], is not among the
    sources.  The spec's data model makes [TrigramProfile] a mapping from
    trigram strings to floating-point weights with unique keys, and
    [LanguageProfiles] an ordered collection of (code, profile) pairs; the
    calls in [Lequel.cpp] ([find], [end], [insert] of a
    [std::pair<string,float>], [operator[]], range-[for]) are those of
    [std::map<std::string, float>].  A map is the list of its entries in
    iteration order, that is in increasing key order. *)

Definition TrigramProfile : Type := list (string * float).

(** [m.find(k)]: the entry's value, [None] for [m.end()]. *)
Fixpoint find (k : string) (m : TrigramProfile) : option float :=
  match m with
  | [] => None
  | (k', v) :: m' => if k =? k' then Some v else find k m'
  end.

(** [m.insert({k, v})]: a new entry at its place in key order; an entry
    already present under [k] is left as it is. *)
Fixpoint insert (k : string) (v : float) (m : TrigramProfile) : TrigramProfile :=
  match m with
  | [] => [(k, v)]
  | (k', v') :: m' =>
      match String.compare k k' with
      | Lt => (k, v) :: m
      | Eq => m
      | Gt => (k', v') :: insert k v m'
      end
  end.

(** A write through the iterator returned by [find]: [it->second = v]. *)
Fixpoint assign (k : string) (v : float) (m : TrigramProfile) : TrigramProfile :=
  match m with
  | [] => []
  | (k', v') :: m' =>
      if k =? k' then (k', v) :: m' else (k', v') :: assign k v m'
  end.

(** [m[k]] on a non-const map: the value under [k]; a missing key is
    first inserted with a value-initialised ([0]) weight. *)
Definition subscript (k : string) (m : TrigramProfile) : float * TrigramProfile :=
  match find k m with
  | Some v => (v, m)
  | None => (zero, insert k zero m)
  end.

(** The key order of the map: [std::less<std::string>] compares
    byte-wise, a proper prefix being the smaller, as [String.compare]. *)
Definition key_lt (a b : string) : Prop := String.compare a b = Lt.

(** The representation invariant: keys strictly increasing. *)
Fixpoint ordered (m : TrigramProfile) : bool :=
  match m with
  | [] => true
  | (k, _) :: m' =>
      match m' with
      | [] => true
      | (k', _) :: _ => String.ltb k k' && ordered m'
      end
  end.

Definition keys (m : TrigramProfile) : list string := map fst m.

Record LanguageProfile : Type := {
  languageCode : string;
  trigramProfile : TrigramProfile
}.

Definition LanguageProfiles : Type := list LanguageProfile.

(** [Text]: the lines of the input, each a byte string. *)
Definition Text : Type := list string.

(** ** Wide strings *)

Definition wchar_t : Type := N.
Definition wstring : Type := list wchar_t.

(** [s.substr(pos, n)]: at most [n] units from [pos], clamped to the end
    of [s]; [pos > s.size()] throws. *)
Definition wsubstr (s : wstring) (pos n : nat) : result wstring :=
  if (List.length s <? pos)%nat then Throw out_of_range
  else Ok (firstn n (skipn pos s)).

Definition carriage_return : ascii := ascii_of_nat 13.

(** Lines 35-37: drop one trailing carriage return. *)
Definition strip_cr (line : string) : string :=
  if (0 <? String.length line)%nat then
    match String.get (String.length line - 1) line with
    | Some c =>
        if Ascii.eqb c carriage_return
        then String.substring 0 (String.length line - 1) line
        else line
    | None => line
    end
  else line.

(** ** The four functions of [Lequel.cpp] *)

Section Lequel.

(** [converter.from_bytes] and [converter.to_bytes] of the
    [std::wstring_convert] object; [None] is a failed conversion.  The
    converter is built without an error string, so a failed conversion
    throws [std::range_error].  The facet differs between the two copies
    of the source: [codecvt_utf8_utf16<wchar_t>] at line 28,
    [codecvt_utf8<wchar_t>] at line 158. *)
Variable from_bytes : string -> option wstring.
Variable to_bytes : wstring -> option string.

(** The string literal returned when no language was selected: the one of
    line 121 in the first copy, of line 267 in the second
    ([message_line_121] and [message_line_267] below). *)
Variable no_match_message : string.

Definition convert {A B : Type} (f : A -> option B) (a : A) : result B :=
  match f a with
  | Some b => Ok b
  | None => Throw range_error
  end.

(** Lines 48-52: one more occurrence of [trigram]. *)
Definition count_trigram (trigram : string) (profile : TrigramProfile)
  : TrigramProfile :=
  match find trigram profile with
  | Some v => assign trigram (add v one) profile
  | None => insert trigram one profile
  end.

(** Lines 44-53.  The range-[for] visits every unit of [unicodeString]
    ([letters] is what remains to visit) while [i] counts the
    iterations.  [i] is an [int]: a line is taken to have fewer than 2^31
    units, so that [i++] does not overflow. *)
Fixpoint trigram_loop (unicodeString : wstring) (i : nat) (letters : wstring)
  (profile : TrigramProfile) : result TrigramProfile :=
  match letters with
  | [] => Ok profile
  | _ :: letters' =>
      wtrigram <- wsubstr unicodeString i 3 ;;
      trigram <- convert to_bytes wtrigram ;;
      trigram_loop unicodeString (S i) letters' (count_trigram trigram profile)
  end.

(** Lines 33-56, the body of the loop over the lines. *)
Definition build_line (profile : TrigramProfile) (line : string)
  : result TrigramProfile :=
  let line := strip_cr line in
  unicodeString <- convert from_bytes line ;;
  if (List.length unicodeString <? 3)%nat then Ok profile
  else trigram_loop unicodeString 0 unicodeString profile.

Fixpoint build_lines (text : Text) (profile : TrigramProfile)
  : result TrigramProfile :=
  match text with
  | [] => Ok profile
  | line :: text' =>
      profile' <- build_line profile line ;;
      build_lines text' profile'
  end.

Definition buildTrigramProfile (text : Text) : result TrigramProfile :=
  build_lines text [].

(** Lines 65-77.  The function returns [void] and updates its argument:
    the result is the profile after the call.  [sqrt] on a [float] is the
    [float] overload of [<cmath>]. *)
Definition profile_total (trigramProfile : TrigramProfile) : float :=
  fold_left (fun tot el => add tot (snd el)) trigramProfile zero.

Definition normalizeTrigramProfile (trigramProfile : TrigramProfile)
  : TrigramProfile :=
  let tot := profile_total trigramProfile in
  let tot := sqrt tot in
  map (fun el => (fst el, div (snd el) tot)) trigramProfile.

(** The body contains no [throw] and calls only [std::sqrt] and [float]
    arithmetic: seen from the caller, a call always returns normally. *)
Definition normalizeTrigramProfile_outcome (trigramProfile : TrigramProfile)
  : result TrigramProfile :=
  Ok (normalizeTrigramProfile trigramProfile).

(** The divisions [el.second / tot] the second loop evaluates, in order,
    as (dividend, divisor) pairs. *)
Definition normalize_divisions (trigramProfile : TrigramProfile)
  : list (float * float) :=
  let tot := sqrt (profile_total trigramProfile) in
  map (fun el => (snd el, tot)) trigramProfile.

(** Lines 86-93.  [languageProfile] is a non-const reference and
    [operator[]] may insert, so the loop threads the language profile
    along with [simCos]. *)
Definition cosine_step (st : TrigramProfile * float) (p1 : string * float)
  : TrigramProfile * float :=
  let '(languageProfile, simCos) := st in
  match find (fst p1) languageProfile with
  | Some _ =>
      let '(w, languageProfile') := subscript (fst p1) languageProfile in
      (languageProfile', add simCos (mul (snd p1) w))
  | None => (languageProfile, simCos)
  end.

Definition getCosineSimilarity_run (textProfile languageProfile : TrigramProfile)
  : TrigramProfile * float :=
  fold_left cosine_step textProfile (languageProfile, zero).

Definition getCosineSimilarity (textProfile languageProfile : TrigramProfile)
  : float :=
  snd (getCosineSimilarity_run textProfile languageProfile).

(** Lines 107-118: the state of the loop is [(maxSim, langCode)].  The
    language profiles come back from [getCosineSimilarity] unchanged
    (lemma [getCosineSimilarity_frame]), so they are not threaded. *)
Definition rank_step (textProfile : TrigramProfile) (st : float * string)
  (language : LanguageProfile) : float * string :=
  let '(maxSim, langCode) := st in
  let actSim := getCosineSimilarity textProfile (trigramProfile language) in
  if ltb maxSim actSim then (actSim, languageCode language)
  else (maxSim, langCode).

Definition rank (textProfile : TrigramProfile) (languages : LanguageProfiles)
  : float * string :=
  fold_left (rank_step textProfile) languages (zero, "Err").

Definition identifyLanguage (text : Text) (languages : LanguageProfiles)
  : result string :=
  textProfile <- buildTrigramProfile text ;;
  let '(maxSim, langCode) := rank textProfile languages in
  if langCode =? "Err" then Ok no_match_message else Ok langCode.

(** ** The trigram keys of a text, in the specification's words

    A second description of what [buildTrigramProfile] counts, to compare
    the loops above with. *)

(** The window of length 3 starting at index [i], clamped to the end of
    the line. *)
Definition window (us : wstring) (i : nat) : wstring :=
  firstn 3 (skipn i us).

(** A line of fewer than 3 units is skipped; any other line has one
    window per index from [0] to its length minus 1. *)
Definition line_windows (us : wstring) : list wstring :=
  if (List.length us <? 3)%nat then []
  else map (window us) (seq 0 (List.length us)).

Fixpoint encode_all (ws : list wstring) : option (list string) :=
  match ws with
  | [] => Some []
  | w :: ws' =>
      match to_bytes w, encode_all ws' with
      | Some k, Some ks => Some (k :: ks)
      | _, _ => None
      end
  end.

Definition line_trigrams (line : string) : option (list string) :=
  match from_bytes (strip_cr line) with
  | Some us => encode_all (line_windows us)
  | None => None
  end.

Fixpoint text_trigrams (text : Text) : option (list string) :=
  match text with
  | [] => Some []
  | line :: text' =>
      match line_trigrams line, text_trigrams text' with
      | Some ks, Some ks' => Some (ks ++ ks')
      | _, _ => None
      end
  end.

(** Counting a sequence of keys one after the other. *)
Definition tally (ks : list string) (profile : TrigramProfile) : TrigramProfile :=
  fold_left (fun p k => count_trigram k p) ks profile.

(** One more occurrence: the count starts at [1] for a new key. *)
Definition one_more (o : option float) : option float :=
  match o with
  | Some v => Some (add v one)
  | None => Some one
  end.

(** The weight of a key seen [n] times: absent when never seen, [1] when
    seen once, one more for each further occurrence. *)
Fixpoint count_value (n : nat) : option float :=
  match n with
  | O => None
  | S n' => one_more (count_value n')
  end.

End Lequel.

(** ** The two message literals *)

(** Line 121: between "encontr" and " lenguaje" the literal holds the six
    bytes E2 88 9A E2 89 A5. *)
Definition message_line_121 : string :=
  "No se encontr" ++
  String (ascii_of_nat 226) (String (ascii_of_nat 136) (String (ascii_of_nat 154)
  (String (ascii_of_nat 226) (String (ascii_of_nat 137) (String (ascii_of_nat 165)
  " lenguaje similar"))))).

(** Line 267: the two bytes C3 B3 at the same place. *)
Definition message_line_267 : string :=
  "No se encontr" ++
  String (ascii_of_nat 195) (String (ascii_of_nat 179) " lenguaje similar").

(** ** Well-formed UTF-8

    The code points of a byte sequence that is well-formed UTF-8 in the
    sense of RFC 3629 (no truncated or overlong sequence, no surrogate,
    nothing above U+10FFFF), [None] for any other byte sequence.  This is
    the yardstick for "valid Unicode text", not something the code
    calls. *)

Module Rfc3629.

Definition continuation (b : N) : bool := ((128 <=? b) && (b <? 192))%N.

Fixpoint decode (bs : list N) : option wstring :=
  match bs with
  | [] => Some []
  | b1 :: r1 =>
      if (b1 <? 128)%N then option_map (cons b1) (decode r1)
      else if (b1 <? 194)%N then None
      else if (b1 <? 224)%N then
        match r1 with
        | b2 :: r2 =>
            if continuation b2
            then option_map (cons ((b1 - 192) * 64 + (b2 - 128))%N) (decode r2)
            else None
        | _ => None
        end
      else if (b1 <? 240)%N then
        match r1 with
        | b2 :: b3 :: r3 =>
            let cp := ((b1 - 224) * 4096 + (b2 - 128) * 64 + (b3 - 128))%N in
            if continuation b2 && continuation b3 && (2048 <=? cp)%N
               && negb ((55296 <=? cp) && (cp <? 57344))%N
            then option_map (cons cp) (decode r3)
            else None
        | _ => None
        end
      else if (b1 <? 245)%N then
        match r1 with
        | b2 :: b3 :: b4 :: r4 =>
            let cp := ((b1 - 240) * 262144 + (b2 - 128) * 4096
                       + (b3 - 128) * 64 + (b4 - 128))%N in
            if continuation b2 && continuation b3 && continuation b4
               && (65536 <=? cp)%N && (cp <? 1114112)%N
            then option_map (cons cp) (decode r4)
            else None
        | _ => None
        end
      else None
  end.

Definition code_points (s : string) : option (list N) :=
  decode (map N_of_ascii (list_ascii_of_string s)).

End Rfc3629.

(** ** The converter facets

    [std::wstring_convert] and the two facets are library code.  They are
    modelled after libstdc++ ([codecvt.cc], [locale_conv.h]) with a 32-bit
    [wchar_t]: a facet member converts as far as it can and reports [ok],
    [partial] or [error]; [wstring_convert] throws on [error] only, so
    that an incomplete sequence at the end of the input is dropped
    silently.  The decoder accepts encoded surrogates. *)

Module Codecvt.

Inductive utf8_read : Type :=
| incomplete_mb_character
| invalid_mb_sequence
| code_point (c : N) (rest : list N).

Inductive cvt_result : Type := cvt_ok | cvt_partial | cvt_error.

Definition max_code_point : N := 1114111.

(** [(c & 0xC0) == 0x80] *)
Definition continuation (c : N) : bool := (N.land c 192 =? 128)%N.

Definition read_utf8_code_point (from : list N) : utf8_read :=
  match from with
  | [] => incomplete_mb_character
  | c1 :: r1 =>
      if (c1 <? 128)%N then code_point c1 r1
      else if (c1 <? 194)%N then invalid_mb_sequence
      else if (c1 <? 224)%N then
        match r1 with
        | c2 :: r2 =>
            if negb (continuation c2) then invalid_mb_sequence
            else code_point (c1 * 64 + c2 - 12416)%N r2
        | _ => incomplete_mb_character
        end
      else if (c1 <? 240)%N then
        match r1 with
        | c2 :: c3 :: r3 =>
            if negb (continuation c2) then invalid_mb_sequence
            else if ((c1 =? 224) && (c2 <? 160))%N then invalid_mb_sequence
            else if negb (continuation c3) then invalid_mb_sequence
            else code_point (c1 * 4096 + c2 * 64 + c3 - 925824)%N r3
        | _ => incomplete_mb_character
        end
      else if (c1 <? 245)%N then
        match r1 with
        | c2 :: c3 :: c4 :: r4 =>
            if negb (continuation c2) then invalid_mb_sequence
            else if ((c1 =? 240) && (c2 <? 144))%N then invalid_mb_sequence
            else if ((c1 =? 244) && (144 <=? c2))%N then invalid_mb_sequence
            else if negb (continuation c3) then invalid_mb_sequence
            else if negb (continuation c4) then invalid_mb_sequence
            else code_point
                   (c1 * 262144 + c2 * 4096 + c3 * 64 + c4 - 63447168)%N r4
        | _ => incomplete_mb_character
        end
      else invalid_mb_sequence
  end.

Definition write_utf8_code_point (c : N) : option (list N) :=
  if (c <? 128)%N then Some [c]
  else if (c <=? 2047)%N then Some [c / 64 + 192; c mod 64 + 128]%N
  else if (c <=? 65535)%N then
    Some [c / 4096 + 224; (c / 64) mod 64 + 128; c mod 64 + 128]%N
  else if (c <=? 1114111)%N then
    Some [c / 262144 + 240; (c / 4096) mod 64 + 128;
          (c / 64) mod 64 + 128; c mod 64 + 128]%N
  else None.

(** One unit below U+10000, a surrogate pair from there on. *)
Definition write_utf16_code_point (c : N) : list N :=
  if (c <? 65536)%N then [c]
  else [55232 + c / 1024; 56320 + c mod 1024]%N.

Definition is_high_surrogate (c : N) : bool :=
  ((55296 <=? c) && (c <=? 56319))%N.

Definition is_low_surrogate (c : N) : bool :=
  ((56320 <=? c) && (c <=? 57343))%N.

Definition surrogate_pair_to_code_point (high low : N) : N :=
  (high * 1024 + low - 56613888)%N.

(** [ucs4_in] and [utf16_in]: read code points until the input is used
    up; [write] stores one code point.  Every round consumes at least one
    byte, so the length of the input is fuel enough. *)
Fixpoint utf8_in (write : N -> list N) (fuel : nat) (from : list N)
  : cvt_result * wstring :=
  match fuel, from with
  | _, [] => (cvt_ok, [])
  | O, _ => (cvt_partial, [])
  | S fuel', _ =>
      match read_utf8_code_point from with
      | incomplete_mb_character => (cvt_partial, [])
      | invalid_mb_sequence => (cvt_error, [])
      | code_point c rest =>
          if (max_code_point <? c)%N then (cvt_error, [])
          else let '(r, out) := utf8_in write fuel' rest in (r, write c ++ out)
      end
  end.

Definition ucs4_in (from : list N) : cvt_result * wstring :=
  utf8_in (fun c => [c]) (List.length from) from.

Definition utf16_in (from : list N) : cvt_result * wstring :=
  utf8_in write_utf16_code_point (List.length from) from.

(** Store the UTF-8 form of [c] in front of what the rest of the loop
    produces. *)
Definition emit (c : N) (k : cvt_result * list N) : cvt_result * list N :=
  if (max_code_point <? c)%N then (cvt_error, [])
  else match write_utf8_code_point c with
       | Some bs => (fst k, bs ++ snd k)
       | None => (cvt_partial, [])
       end.

Fixpoint ucs4_out (from : wstring) : cvt_result * list N :=
  match from with
  | [] => (cvt_ok, [])
  | c :: rest => emit c (ucs4_out rest)
  end.

(** A high surrogate must be followed by a low one (at the very end of
    the input the conversion just stops); a low surrogate on its own is
    an error. *)
Fixpoint utf16_out (from : wstring) : cvt_result * list N :=
  match from with
  | [] => (cvt_ok, [])
  | c :: rest =>
      if is_high_surrogate c then
        match rest with
        | [] => (cvt_ok, [])
        | c2 :: rest' =>
            if is_low_surrogate c2
            then emit (surrogate_pair_to_code_point c c2) (utf16_out rest')
            else (cvt_error, [])
        end
      else if is_low_surrogate c then (cvt_error, [])
      else emit c (utf16_out rest)
  end.

Definition bytes_of_string (s : string) : list N :=
  map N_of_ascii (list_ascii_of_string s).

Definition string_of_bytes (bs : list N) : string :=
  string_of_list_ascii (map ascii_of_N bs).

(** [wstring_convert]: the converted text unless the facet reported an
    error. *)
Definition converted {A B : Type} (f : B -> A) (r : cvt_result * B)
  : option A :=
  match r with
  | (cvt_error, _) => None
  | (_, out) => Some (f out)
  end.

End Codecvt.

(** [wstring_convert<codecvt_utf8<wchar_t>>], line 158: one unit per code
    point. *)
Module Utf8.

Definition from_bytes (s : string) : option wstring :=
  Codecvt.converted (fun w => w) (Codecvt.ucs4_in (Codecvt.bytes_of_string s)).

Definition to_bytes (w : wstring) : option string :=
  Codecvt.converted Codecvt.string_of_bytes (Codecvt.ucs4_out w).

End Utf8.

(** [wstring_convert<codecvt_utf8_utf16<wchar_t>>], line 28: UTF-16 code
    units, two of them for a code point from U+10000 on. *)
Module Utf8Utf16.

Definition from_bytes (s : string) : option wstring :=
  Codecvt.converted (fun w => w) (Codecvt.utf16_in (Codecvt.bytes_of_string s)).

Definition to_bytes (w : wstring) : option string :=
  Codecvt.converted Codecvt.string_of_bytes (Codecvt.utf16_out w).

End Utf8Utf16.

(** ** Sums and dot products, in the specification's words *)

(** The [float] sum of a list, accumulated from [0] in list order. *)
Definition float_sum (xs : list float) : float := fold_left add xs zero.

Definition contains (m : TrigramProfile) (k : string) : bool :=
  match find k m with
  | Some _ => true
  | None => false
  end.

(** The value under [k], for a key that is present. *)
Definition weight (m : TrigramProfile) (k : string) : float :=
  match find k m with
  | Some v => v
  | None => zero
  end.

(** The entries of [a] whose trigram also exists in [b]. *)
Definition shared (a b : TrigramProfile) : TrigramProfile :=
  filter (fun p => contains b (fst p)) a.

(** For each trigram of [a] that [b] has too, the product of the two
    values. *)
Definition shared_products (a b : TrigramProfile) : list float :=
  map (fun p => mul (snd p) (weight b (fst p))) (shared a b).

Definition dot_product (a b : TrigramProfile) : float :=
  float_sum (shared_products a b).

(** The score of a language for a text profile. *)
Definition score (textProfile : TrigramProfile) (language : LanguageProfile)
  : float :=
  getCosineSimilarity textProfile (trigramProfile language).

(** The scale standard L2 normalisation would divide by. *)
Definition l2_norm (m : TrigramProfile) : float :=
  sqrt (float_sum (map (fun el => mul (snd el) (snd el)) m)).

(** ** Example data *)

(** The second copy of the source (lines 149 and 243). *)
Definition utf8_buildTrigramProfile : Text -> result TrigramProfile :=
  buildTrigramProfile Utf8.from_bytes Utf8.to_bytes.

Definition utf8_identifyLanguage : Text -> LanguageProfiles -> result string :=
  identifyLanguage Utf8.from_bytes Utf8.to_bytes message_line_267.

(** The first copy of the source (lines 26 and 102). *)
Definition utf16_buildTrigramProfile : Text -> result TrigramProfile :=
  buildTrigramProfile Utf8Utf16.from_bytes Utf8Utf16.to_bytes.

Definition utf16_identifyLanguage : Text -> LanguageProfiles -> result string :=
  identifyLanguage Utf8Utf16.from_bytes Utf8Utf16.to_bytes message_line_121.

Definition language (code : string) (profile : TrigramProfile) : LanguageProfile :=
  {| languageCode := code; trigramProfile := profile |}.

(** A one-character string holding the byte [n]. *)
Definition byte (n : nat) : string := String (ascii_of_nat n) "".

(** U+1F600 in UTF-8: F0 9F 98 80. *)
Definition smiley : string :=
  (byte 240 ++ byte 159 ++ byte 152 ++ byte 128)%string.

(** ** Notions used to state further properties *)

(** A language scores strictly above 0 for a text profile. *)
Definition positive_score (textProfile : TrigramProfile)
  (language : LanguageProfile) : bool :=
  ltb zero (score textProfile language).

(** A line followed by one carriage return, as in a CRLF text. *)
Definition add_cr (line : string) : string :=
  (line ++ String carriage_return "")%string.

(** The test of lines 35-36: the line is not empty and its last character
    is a carriage return. *)
Definition ends_with_cr (line : string) : bool :=
  (0 <? String.length line)%nat &&
  match String.get (String.length line - 1) line with
  | Some c => Ascii.eqb c carriage_return
  | None => false
  end.

(** * Properties *)

(** ** binary32 multiplication *)

Lemma float_mul_comm (x y : float) : mul x y = mul y x.
Proof.
  unfold mul.
  destruct x as [sx|sx| |sx mx ex], y as [sy|sy| |sy my ey]; simpl;
    try reflexivity; try (rewrite (xorb_comm sx sy); reflexivity).
  rewrite (xorb_comm sx sy), (Pos.mul_comm mx my), (Z.add_comm ex ey).
  reflexivity.
Qed.

(** ** The key order *)

Lemma key_lt_trans (a b c : string) : key_lt a b -> key_lt b c -> key_lt a c.
Proof.
  unfold key_lt. intros Hab Hbc.
  apply OrderedTypeEx.String_as_OT.cmp_lt.
  apply OrderedTypeEx.String_as_OT.cmp_lt in Hab, Hbc.
  exact (OrderedTypeEx.String_as_OT.lt_trans _ _ _ Hab Hbc).
Qed.

Lemma key_lt_irrefl (a : string) : ~ key_lt a a.
Proof.
  unfold key_lt. intro H.
  assert (E : String.compare a a = Eq)
    by (apply OrderedTypeEx.String_as_OT.cmp_eq; reflexivity).
  congruence.
Qed.

Lemma key_lt_neq (a b : string) : key_lt a b -> (a =? b) = false.
Proof.
  intros H. apply String.eqb_neq. intros ->. exact (key_lt_irrefl _ H).
Qed.

Lemma key_gt_lt (a b : string) : String.compare a b = Gt -> key_lt b a.
Proof.
  unfold key_lt. intro H. rewrite String.compare_antisym, H. reflexivity.
Qed.

Lemma key_compare_eq (a b : string) : String.compare a b = Eq -> a = b.
Proof. apply OrderedTypeEx.String_as_OT.cmp_eq. Qed.

Lemma ltb_key_lt (a b : string) : String.ltb a b = true <-> key_lt a b.
Proof.
  unfold String.ltb, key_lt.
  destruct (String.compare a b); split; congruence.
Qed.

(** ** The map operations *)

Lemma ordered_cons_inv k v m :
  ordered ((k, v) :: m) = true ->
  ordered m = true /\ Forall (key_lt k) (keys m).
Proof.
  revert k v. induction m as [|[k' v'] m IH]; intros k v H.
  - split; [reflexivity | constructor].
  - change (String.ltb k k' && ordered ((k', v') :: m) = true) in H.
    apply andb_true_iff in H. destruct H as [Hk Hm].
    apply ltb_key_lt in Hk.
    split; [exact Hm|].
    destruct (IH _ _ Hm) as [_ Hall].
    constructor; [exact Hk|].
    eapply Forall_impl; [|exact Hall].
    intros x Hx. exact (key_lt_trans _ _ _ Hk Hx).
Qed.

Lemma ordered_cons k v m :
  ordered m = true -> Forall (key_lt k) (keys m) ->
  ordered ((k, v) :: m) = true.
Proof.
  intros Hm Hall. destruct m as [|[k' v'] m]; [reflexivity|].
  change (String.ltb k k' && ordered ((k', v') :: m) = true).
  apply andb_true_iff. split; [|exact Hm].
  apply ltb_key_lt. inversion Hall; assumption.
Qed.

Lemma find_none_above k m :
  Forall (key_lt k) (keys m) -> find k m = None.
Proof.
  induction m as [|[k' v'] m IH]; intros H; [reflexivity|].
  inversion H as [|? ? Hk Hm]; subst. cbn [find].
  rewrite (key_lt_neq _ _ Hk). exact (IH Hm).
Qed.

Lemma find_insert k v m k' :
  find k m = None ->
  find k' (insert k v m) = if k' =? k then Some v else find k' m.
Proof.
  induction m as [|[k0 v0] m IH]; intros Hnone.
  - reflexivity.
  - cbn [find] in Hnone. cbn [insert].
    destruct (k =? k0) eqn:E0; [discriminate|].
    destruct (String.compare k k0) eqn:C.
    + apply key_compare_eq in C. apply String.eqb_neq in E0. contradiction.
    + reflexivity.
    + cbn [find]. rewrite (IH Hnone).
      destruct (k' =? k0) eqn:E1; [|reflexivity].
      apply String.eqb_eq in E1. subst k'.
      rewrite String.eqb_sym, E0. reflexivity.
Qed.

Lemma find_assign k v m k' :
  find k' (assign k v m) =
  if k' =? k then match find k m with Some _ => Some v | None => None end
  else find k' m.
Proof.
  induction m as [|[k0 v0] m IH].
  - cbn. destruct (k' =? k); reflexivity.
  - cbn [assign find].
    destruct (k =? k0) eqn:E0.
    + apply String.eqb_eq in E0. subst k0. cbn [find].
      destruct (k' =? k); reflexivity.
    + cbn [find]. rewrite IH.
      destruct (k' =? k0) eqn:E1; [|reflexivity].
      apply String.eqb_eq in E1. subst k0.
      rewrite String.eqb_sym, E0. reflexivity.
Qed.

Lemma keys_assign k v m : keys (assign k v m) = keys m.
Proof.
  induction m as [|[k0 v0] m IH]; [reflexivity|].
  cbn [assign]. destruct (k =? k0); cbn; [reflexivity|].
  f_equal. exact IH.
Qed.

Lemma ordered_keys m m' : keys m = keys m' -> ordered m = ordered m'.
Proof.
  revert m'. induction m as [|[k v] m IH]; intros [|[k' v'] m'] H;
    try discriminate; [reflexivity|].
  cbn in H. injection H as -> Hk.
  cbn [ordered]. destruct m as [|[k1 v1] m], m' as [|[k1' v1'] m'];
    try discriminate; [reflexivity|].
  rewrite (IH _ Hk). cbn in Hk. injection Hk as -> _. reflexivity.
Qed.

Lemma ordered_assign k v m : ordered (assign k v m) = ordered m.
Proof. apply ordered_keys, keys_assign. Qed.

Lemma keys_insert_above k0 k v m :
  key_lt k0 k -> Forall (key_lt k0) (keys m) ->
  Forall (key_lt k0) (keys (insert k v m)).
Proof.
  intros Hk. induction m as [|[k1 v1] m IH]; intros Hall.
  - constructor; [exact Hk | constructor].
  - cbn [insert]. inversion Hall as [|? ? H1 Hm]; subst.
    destruct (String.compare k k1).
    + exact Hall.
    + constructor; assumption.
    + constructor; [exact H1 | exact (IH Hm)].
Qed.

Lemma ordered_insert k v m :
  ordered m = true -> ordered (insert k v m) = true.
Proof.
  induction m as [|[k0 v0] m IH]; intros H; [reflexivity|].
  cbn [insert]. destruct (String.compare k k0) eqn:C.
  - exact H.
  - apply ordered_cons; [exact H|].
    destruct (ordered_cons_inv _ _ _ H) as [_ Hall].
    constructor; [exact C|].
    eapply Forall_impl; [|exact Hall].
    intros x Hx. exact (key_lt_trans _ _ _ C Hx).
  - destruct (ordered_cons_inv _ _ _ H) as [Hm Hall].
    apply ordered_cons; [exact (IH Hm)|].
    apply keys_insert_above; [exact (key_gt_lt _ _ C) | exact Hall].
Qed.

(** ** [normalizeTrigramProfile] *)

Lemma fold_add_map (p : TrigramProfile) (acc : float) :
  fold_left (fun tot el => add tot (snd el)) p acc =
  fold_left add (map snd p) acc.
Proof.
  revert acc. induction p as [|el p IH]; intros acc; [reflexivity|].
  cbn [fold_left map]. apply IH.
Qed.

Lemma profile_total_sum (p : TrigramProfile) :
  profile_total p = float_sum (map snd p).
Proof. apply fold_add_map. Qed.

Lemma find_map_values (f : float -> float) (p : TrigramProfile) (k : string) :
  find k (map (fun el => (fst el, f (snd el))) p) = option_map f (find k p).
Proof.
  induction p as [|[k0 v0] p IH]; [reflexivity|].
  cbn [map find fst snd]. destruct (k =? k0); [reflexivity | exact IH].
Qed.

Lemma normalize_keys (p : TrigramProfile) :
  keys (normalizeTrigramProfile p) = keys p.
Proof.
  unfold normalizeTrigramProfile, keys. rewrite map_map. reflexivity.
Qed.

Lemma normalize_ordered (p : TrigramProfile) :
  ordered (normalizeTrigramProfile p) = ordered p.
Proof. apply ordered_keys, normalize_keys. Qed.

(** The divisions listed by [normalize_divisions] are the ones that
    produce the values of the normalised profile. *)
Lemma normalize_by_divisions (p : TrigramProfile) :
  normalizeTrigramProfile p =
  combine (keys p) (map (fun d => div (fst d) (snd d)) (normalize_divisions p)).
Proof.
  unfold normalizeTrigramProfile, normalize_divisions, keys.
  generalize (sqrt (profile_total p)) as tot. intro tot.
  induction p as [|[k v] p IH]; [reflexivity|].
  cbn [map combine fst snd]. f_equal. exact IH.
Qed.

(** C1, as stated, fails: on the empty profile the call returns normally,
    with the profile still empty; no exception of any kind is reported. *)
Lemma normalize_empty_reports_no_error :
  normalizeTrigramProfile_outcome [] = Ok [] /\
  ~ (exists e, normalizeTrigramProfile_outcome [] = Throw e).
Proof.
  split; [reflexivity|].
  intros [e He]. discriminate He.
Qed.

(** There is no test for a zero total anywhere: a profile whose only
    count is 0 is scaled by 0/0 and ends up holding a NaN. *)
Lemma normalize_zero_total_stores_nan :
  normalizeTrigramProfile_outcome [("abc", zero)] = Ok [("abc", S754_nan)].
Proof. reflexivity. Qed.

(** C1, amended: for every empty profile, [normalizeTrigramProfile]
    returns normally and leaves the profile empty; its scaling loop
    evaluates no division at all, and no non-finite value is stored. *)
Theorem normalize_empty_profile (p : TrigramProfile) :
  keys p = [] ->
  normalizeTrigramProfile_outcome p = Ok [] /\
  normalize_divisions p = [] /\
  Forall (fun el => is_finite (snd el) = true) (normalizeTrigramProfile p).
Proof.
  intros H. destruct p as [|el p]; [|discriminate H].
  repeat split. constructor.
Qed.

Lemma normalize_empty_profile_witness :
  normalizeTrigramProfile_outcome [] = Ok [] /\
  normalize_divisions [] = [] /\
  Forall (fun el => is_finite (snd el) = true) (normalizeTrigramProfile []).
Proof. apply (normalize_empty_profile []). reflexivity. Defined.

(** C4: after [normalizeTrigramProfile], the value under every key is
    that key's original count divided by the square root of the sum of
    all original counts (all in binary32), and the key set is the same. *)
Theorem normalize_value (p : TrigramProfile) (k : string) (v : float) :
  find k p = Some v ->
  find k (normalizeTrigramProfile p) =
    Some (div v (sqrt (float_sum (map snd p)))) /\
  keys (normalizeTrigramProfile p) = keys p.
Proof.
  intros H. split; [|apply normalize_keys].
  unfold normalizeTrigramProfile.
  rewrite (find_map_values (fun x => div x (sqrt (profile_total p)))).
  rewrite H, profile_total_sum. reflexivity.
Qed.

Lemma normalize_value_witness :
  find "the" (normalizeTrigramProfile [("cat", of_Z 1); ("the", of_Z 3)]) =
    Some (div (of_Z 3) (sqrt (float_sum [of_Z 1; of_Z 3]))) /\
  keys (normalizeTrigramProfile [("cat", of_Z 1); ("the", of_Z 3)]) =
    ["cat"; "the"].
Proof.
  apply (normalize_value [("cat", of_Z 1); ("the", of_Z 3)] "the" (of_Z 3)).
  reflexivity.
Defined.

(** The scale is the square root of the sum of the counts, not the L2
    norm: for counts 1 and 3 the value under "the" is 3/2, where L2
    normalisation would give 3/sqrt(10). *)
Lemma normalize_is_not_l2 :
  let p := [("cat", of_Z 1); ("the", of_Z 3)] in
  find "the" (normalizeTrigramProfile p) = Some (div (of_Z 3) (of_Z 2)) /\
  div (of_Z 3) (l2_norm p) <> div (of_Z 3) (of_Z 2).
Proof.
  split; [vm_compute; reflexivity|].
  vm_compute. discriminate.
Qed.

(** ** [getCosineSimilarity] *)

Lemma subscript_present k m v : find k m = Some v -> subscript k m = (v, m).
Proof. unfold subscript. intros ->. reflexivity. Qed.

Lemma cosine_step_value b s p :
  cosine_step (b, s) p =
  (b, if contains b (fst p) then add s (mul (snd p) (weight b (fst p))) else s).
Proof.
  unfold cosine_step, contains, weight.
  destruct (find (fst p) b) as [w|] eqn:E; [|reflexivity].
  rewrite (subscript_present _ _ _ E). reflexivity.
Qed.

Lemma cosine_run_from a b s :
  fold_left cosine_step a (b, s) =
  (b, fold_left add (shared_products a b) s).
Proof.
  revert s. induction a as [|p a IH]; intros s; [reflexivity|].
  cbn [fold_left]. rewrite cosine_step_value, IH.
  unfold shared_products, shared. cbn [filter].
  destruct (contains b (fst p)); reflexivity.
Qed.

(** The language profile is handed back as it was received: the guarded
    [operator[]] never inserts. *)
Lemma getCosineSimilarity_frame a b : fst (getCosineSimilarity_run a b) = b.
Proof. unfold getCosineSimilarity_run. rewrite cosine_run_from. reflexivity. Qed.

(** C6: [getCosineSimilarity] is the sum, over the trigrams of the text
    profile that also exist in the language profile, of the products of
    the two values; the other trigrams add nothing. *)
Theorem getCosineSimilarity_dot_product (textProfile languageProfile : TrigramProfile) :
  getCosineSimilarity textProfile languageProfile =
  dot_product textProfile languageProfile.
Proof.
  unfold getCosineSimilarity, getCosineSimilarity_run, dot_product, float_sum.
  rewrite cosine_run_from.
  reflexivity.
Qed.

Lemma shared_products_nil_r a : shared_products a [] = [].
Proof.
  unfold shared_products, shared.
  induction a as [|p a IH]; [reflexivity | exact IH].
Qed.

(** An entry of [b] below every key of [a] is never looked at. *)
Lemma shared_products_skip k v a b :
  Forall (key_lt k) (keys a) ->
  shared_products a ((k, v) :: b) = shared_products a b.
Proof.
  unfold shared_products, shared, contains, weight.
  induction a as [|[k' v'] a IH]; intros H; [reflexivity|].
  inversion H as [|? ? Hk Ha]; subst.
  cbn [filter fst find]. cbn [fst] in Hk.
  assert (E : (k' =? k) = false).
  { rewrite String.eqb_sym. exact (key_lt_neq _ _ Hk). }
  rewrite E.
  destruct (find k' b) as [w|] eqn:Ef.
  - cbn [map fst snd find]. rewrite E, Ef. f_equal. exact (IH Ha).
  - exact (IH Ha).
Qed.

(** An entry of [a] whose key [b] lacks is dropped. *)
Lemma shared_products_drop k v a b :
  find k b = None ->
  shared_products ((k, v) :: a) b = shared_products a b.
Proof.
  intros H. unfold shared_products, shared, contains.
  cbn [filter fst]. rewrite H. reflexivity.
Qed.

Lemma shared_products_keep k v a b w :
  find k b = Some w ->
  shared_products ((k, v) :: a) b = mul v w :: shared_products a b.
Proof.
  intros H. unfold shared_products, shared, contains, weight.
  cbn [filter fst]. rewrite H. cbn [map fst snd]. rewrite H. reflexivity.
Qed.

Lemma key_lt_above k k' m :
  key_lt k k' -> Forall (key_lt k') (keys m) -> Forall (key_lt k) (keys m).
Proof.
  intros Hk Hall. eapply Forall_impl; [|exact Hall].
  intros x Hx. exact (key_lt_trans _ _ _ Hk Hx).
Qed.

(** Two maps visit their common keys in the same order. *)
Lemma shared_products_comm a :
  forall b, ordered a = true -> ordered b = true ->
  shared_products a b = shared_products b a.
Proof.
  induction a as [|[ka va] a IHa]; intros b Ha Hb.
  - rewrite shared_products_nil_r. reflexivity.
  - destruct (ordered_cons_inv _ _ _ Ha) as [Ha' Hka].
    induction b as [|[kb vb] b IHb].
    + rewrite shared_products_nil_r. reflexivity.
    + destruct (ordered_cons_inv _ _ _ Hb) as [Hb' Hkb].
      destruct (String.compare ka kb) eqn:C.
      * apply key_compare_eq in C. subst kb.
        rewrite (shared_products_keep ka va a _ vb)
          by (cbn [find]; rewrite String.eqb_refl; reflexivity).
        rewrite (shared_products_keep ka vb b _ va)
          by (cbn [find]; rewrite String.eqb_refl; reflexivity).
        rewrite (shared_products_skip _ _ _ _ Hka).
        rewrite (shared_products_skip _ _ _ _ Hkb).
        rewrite (IHa b Ha' Hb'), float_mul_comm. reflexivity.
      * assert (Hall : Forall (key_lt ka) (keys ((kb, vb) :: b))).
        { constructor; [exact C | exact (key_lt_above _ _ _ C Hkb)]. }
        rewrite (shared_products_drop ka va a _ (find_none_above _ _ Hall)).
        rewrite (shared_products_skip _ _ _ _ Hall).
        exact (IHa _ Ha' Hb).
      * apply key_gt_lt in C.
        assert (Hall : Forall (key_lt kb) (keys ((ka, va) :: a))).
        { constructor; [exact C | exact (key_lt_above _ _ _ C Hka)]. }
        rewrite (shared_products_skip _ _ _ _ Hall).
        rewrite (shared_products_drop kb vb b _ (find_none_above _ _ Hall)).
        exact (IHb Hb').
Qed.

(** C9: [getCosineSimilarity] is commutative on two maps: the common
    keys are met in the same (key) order from either side, and binary32
    multiplication is commutative. *)
Theorem getCosineSimilarity_comm (a b : TrigramProfile) :
  ordered a = true -> ordered b = true ->
  getCosineSimilarity a b = getCosineSimilarity b a.
Proof.
  intros Ha Hb.
  unfold getCosineSimilarity, getCosineSimilarity_run.
  rewrite !cosine_run_from, (shared_products_comm a b Ha Hb).
  reflexivity.
Qed.

Lemma getCosineSimilarity_comm_witness :
  getCosineSimilarity
    [("abc", of_Z 3); ("he ", of_Z 5); ("the", of_Z 2)]
    [("cat", of_Z 1); ("he ", of_Z 7); ("the", of_Z 4); ("zzz", of_Z 9)] =
  getCosineSimilarity
    [("cat", of_Z 1); ("he ", of_Z 7); ("the", of_Z 4); ("zzz", of_Z 9)]
    [("abc", of_Z 3); ("he ", of_Z 5); ("the", of_Z 2)].
Proof. apply getCosineSimilarity_comm; reflexivity. Defined.

(** ** [buildTrigramProfile] *)

Lemma find_count_trigram k p k' :
  find k' (count_trigram k p) =
  if k' =? k then one_more (find k p) else find k' p.
Proof.
  unfold count_trigram, one_more.
  destruct (find k p) as [v|] eqn:E.
  - rewrite find_assign, E. reflexivity.
  - apply find_insert. exact E.
Qed.

Lemma ordered_count_trigram k p :
  ordered p = true -> ordered (count_trigram k p) = true.
Proof.
  intros H. unfold count_trigram. destruct (find k p).
  - rewrite ordered_assign. exact H.
  - apply ordered_insert. exact H.
Qed.

Lemma ordered_tally ks :
  forall p, ordered p = true -> ordered (tally ks p) = true.
Proof.
  induction ks as [|k ks IH]; intros p H; [exact H|].
  apply IH, ordered_count_trigram, H.
Qed.

Lemma tally_app ks ks' p : tally (ks ++ ks') p = tally ks' (tally ks p).
Proof. apply fold_left_app. Qed.

Lemma count_value_iter n : count_value n = Nat.iter n one_more None.
Proof. induction n as [|n IH]; [reflexivity|]. cbn. rewrite IH. reflexivity. Qed.

Lemma find_tally ks :
  forall p k,
    find k (tally ks p) =
    Nat.iter (count_occ string_dec ks k) one_more (find k p).
Proof.
  induction ks as [|x ks IH]; intros p k; [reflexivity|].
  change (tally (x :: ks) p) with (tally ks (count_trigram x p)).
  rewrite IH, find_count_trigram.
  destruct (string_dec x k) as [->|Hne].
  - rewrite count_occ_cons_eq by reflexivity.
    rewrite String.eqb_refl, Nat.iter_succ_r. reflexivity.
  - rewrite count_occ_cons_neq by exact Hne.
    assert (E : (k =? x) = false) by (apply String.eqb_neq; congruence).
    rewrite E. reflexivity.
Qed.

Lemma window_length (us : wstring) (i : nat) :
  List.length (window us i) = Nat.min 3 (List.length us - i).
Proof. unfold window. rewrite length_firstn, length_skipn. reflexivity. Qed.

Lemma skipn_step {A : Type} (i : nat) :
  forall (l : list A) x rest,
    skipn i l = x :: rest ->
    (i < List.length l)%nat /\ skipn (S i) l = rest.
Proof.
  induction i as [|i IH]; intros l x rest H.
  - cbn in H. subst l. split; [cbn; lia | reflexivity].
  - destruct l as [|y l]; [discriminate H|].
    cbn [skipn] in H. destruct (IH _ _ _ H) as [Hlt Hs].
    split; [cbn; lia | exact Hs].
Qed.

Section BuildProperties.

Variable from_bytes : string -> option wstring.
Variable to_bytes : wstring -> option string.

(** The inner loop visits the indices [i], [i+1], ... up to the end of the
    line and counts the window at each of them; [substr] is never called
    past the end, so the only exception is a failed conversion. *)
Lemma trigram_loop_windows (us : wstring) :
  forall letters i profile,
    skipn i us = letters ->
    trigram_loop to_bytes us i letters profile =
    match encode_all to_bytes (map (window us) (seq i (List.length letters))) with
    | Some ks => Ok (tally ks profile)
    | None => Throw range_error
    end.
Proof.
  induction letters as [|x letters IH]; intros i profile H; [reflexivity|].
  destruct (skipn_step _ _ _ _ H) as [Hlt Hnext].
  cbn [trigram_loop List.length seq map encode_all].
  unfold wsubstr.
  assert (E : (List.length us <? i)%nat = false) by (apply Nat.ltb_ge; lia).
  rewrite E. cbn [bind]. fold (window us i).
  unfold convert. destruct (to_bytes (window us i)) as [k|]; [|reflexivity].
  cbn [bind]. rewrite (IH (S i) _ Hnext).
  destruct (encode_all to_bytes (map (window us) (seq (S i) (List.length letters))));
    reflexivity.
Qed.

Lemma build_line_trigrams profile line :
  build_line from_bytes to_bytes profile line =
  match line_trigrams from_bytes to_bytes line with
  | Some ks => Ok (tally ks profile)
  | None => Throw range_error
  end.
Proof.
  unfold build_line, line_trigrams, convert, line_windows.
  destruct (from_bytes (strip_cr line)) as [us|]; [|reflexivity].
  cbn [bind]. destruct (List.length us <? 3)%nat; [reflexivity|].
  apply trigram_loop_windows. reflexivity.
Qed.

(** [buildTrigramProfile] refines the specification's description: it
    counts the trigram keys of the text, or throws [std::range_error] when
    a conversion fails. *)
Lemma build_lines_trigrams text :
  forall profile,
    build_lines from_bytes to_bytes text profile =
    match text_trigrams from_bytes to_bytes text with
    | Some ks => Ok (tally ks profile)
    | None => Throw range_error
    end.
Proof.
  induction text as [|line text IH]; intros profile; [reflexivity|].
  cbn [build_lines text_trigrams]. rewrite build_line_trigrams.
  destruct (line_trigrams from_bytes to_bytes line) as [ks|]; [|reflexivity].
  cbn [bind]. rewrite IH.
  destruct (text_trigrams from_bytes to_bytes text) as [ks'|]; [|reflexivity].
  rewrite tally_app. reflexivity.
Qed.

(** A call either returns a profile or throws [std::range_error];
    [std::out_of_range] cannot happen. *)
Lemma buildTrigramProfile_outcomes text :
  (exists profile, buildTrigramProfile from_bytes to_bytes text = Ok profile
                   /\ ordered profile = true) \/
  buildTrigramProfile from_bytes to_bytes text = Throw range_error.
Proof.
  unfold buildTrigramProfile. rewrite build_lines_trigrams.
  destruct (text_trigrams from_bytes to_bytes text) as [ks|]; [left|right; reflexivity].
  exists (tally ks []). split; [reflexivity|]. apply ordered_tally. reflexivity.
Qed.

(** Counts accumulate: the lines that follow go on counting into the
    profile of the lines before them. *)
Lemma buildTrigramProfile_app text text' :
  buildTrigramProfile from_bytes to_bytes (text ++ text') =
  profile <- buildTrigramProfile from_bytes to_bytes text ;;
  build_lines from_bytes to_bytes text' profile.
Proof.
  unfold buildTrigramProfile. generalize (@nil (string * float)) as p.
  induction text as [|line text IH]; intros p; [reflexivity|].
  cbn [app build_lines].
  destruct (build_line from_bytes to_bytes p line) as [p'|e]; [|reflexivity].
  cbn [bind]. apply IH.
Qed.

(** X16: when every conversion succeeds, [buildTrigramProfile] returns one
    profile in which the count of a key is the number of windows, over all
    the lines of at least 3 units of the wide string and all indices
    [0 .. length-1] of each, that encode to this key: [1] for the first
    occurrence and one more for each further one.  A window is clamped to
    the end of its line, so it has [min 3 (length - i)] units. *)
Theorem buildTrigramProfile_counts (text : Text) (ks : list string) :
  text_trigrams from_bytes to_bytes text = Some ks ->
  (exists profile,
     buildTrigramProfile from_bytes to_bytes text = Ok profile /\
     forall k, find k profile = count_value (count_occ string_dec ks k)) /\
  (forall us i, List.length (window us i) = Nat.min 3 (List.length us - i)).
Proof.
  intros H. split; [|exact window_length].
  exists (tally ks []). split.
  - unfold buildTrigramProfile. rewrite build_lines_trigrams, H. reflexivity.
  - intros k. rewrite find_tally, count_value_iter. reflexivity.
Qed.

Lemma text_trigrams_fails text line :
  In line text -> from_bytes (strip_cr line) = None ->
  text_trigrams from_bytes to_bytes text = None.
Proof.
  intros Hin Hbad. induction text as [|l text IH]; [contradiction|].
  cbn [text_trigrams]. destruct Hin as [->|Hin].
  - unfold line_trigrams. rewrite Hbad. reflexivity.
  - rewrite (IH Hin). destruct (line_trigrams from_bytes to_bytes l); reflexivity.
Qed.

(** C7, amended: a text with a line on which the converter reports a
    failure is rejected: the call ends with [std::range_error] thrown to
    the caller. *)
Theorem buildTrigramProfile_rejects_undecodable (text : Text) (line : string) :
  In line text -> from_bytes (strip_cr line) = None ->
  buildTrigramProfile from_bytes to_bytes text = Throw range_error.
Proof.
  intros Hin Hbad. unfold buildTrigramProfile.
  rewrite build_lines_trigrams, (text_trigrams_fails _ _ Hin Hbad). reflexivity.
Qed.

Lemma text_trigrams_short text :
  Forall (fun line => exists us, from_bytes (strip_cr line) = Some us
                                 /\ (List.length us < 3)%nat) text ->
  text_trigrams from_bytes to_bytes text = Some [].
Proof.
  induction 1 as [|line text [us [Hus Hlen]] _ IH]; [reflexivity|].
  cbn [text_trigrams]. unfold line_trigrams, line_windows.
  rewrite Hus, IH.
  apply Nat.ltb_lt in Hlen. rewrite Hlen. reflexivity.
Qed.

(** X17: when every line decodes to fewer than 3 units of the wide
    string, every line is skipped and [buildTrigramProfile] returns the
    empty mapping. *)
Theorem buildTrigramProfile_short_lines (text : Text) :
  Forall (fun line => exists us, from_bytes (strip_cr line) = Some us
                                 /\ (List.length us < 3)%nat) text ->
  buildTrigramProfile from_bytes to_bytes text = Ok [].
Proof.
  intros H. unfold buildTrigramProfile.
  rewrite build_lines_trigrams, (text_trigrams_short _ H). reflexivity.
Qed.

End BuildProperties.

(** ** [identifyLanguage] *)

Section RankProperties.

Variable textProfile : TrigramProfile.

(** A language whose score is not strictly greater than the best one
    leaves the current candidate in place. *)
Lemma rank_step_keep maxSim langCode language :
  ltb maxSim (score textProfile language) = false ->
  rank_step textProfile (maxSim, langCode) language = (maxSim, langCode).
Proof. unfold rank_step, score. intros ->. reflexivity. Qed.

Lemma rank_step_replace maxSim langCode language :
  ltb maxSim (score textProfile language) = true ->
  rank_step textProfile (maxSim, langCode) language =
  (score textProfile language, languageCode language).
Proof. unfold rank_step, score. intros ->. reflexivity. Qed.

Lemma rank_keep languages :
  forall maxSim langCode,
    Forall (fun l => ltb maxSim (score textProfile l) = false) languages ->
    fold_left (rank_step textProfile) languages (maxSim, langCode) =
    (maxSim, langCode).
Proof.
  induction languages as [|l languages IH]; intros maxSim langCode H;
    [reflexivity|].
  inversion H as [|? ? Hl Hrest]; subst.
  cbn [fold_left]. rewrite (rank_step_keep _ _ _ Hl). exact (IH _ _ Hrest).
Qed.

Lemma rank_below (x : float) languages :
  Forall (fun l => ltb (score textProfile l) x = true) languages ->
  forall maxSim langCode,
    ltb maxSim x = true ->
    ltb (fst (fold_left (rank_step textProfile) languages (maxSim, langCode))) x
    = true.
Proof.
  induction 1 as [|l languages Hl _ IH]; intros maxSim langCode Hm;
    [exact Hm|].
  cbn [fold_left].
  destruct (ltb maxSim (score textProfile l)) eqn:E.
  - rewrite (rank_step_replace _ _ _ E). apply IH. exact Hl.
  - rewrite (rank_step_keep _ _ _ E). apply IH. exact Hm.
Qed.

(** The selection rule: a language with a positive score, strictly above
    every language before it and not exceeded by any language after it,
    is the candidate the loop ends with. *)
Lemma rank_select earlier language later :
  ltb zero (score textProfile language) = true ->
  Forall (fun l => ltb (score textProfile l) (score textProfile language) = true) earlier ->
  Forall (fun l => ltb (score textProfile language) (score textProfile l) = false) later ->
  rank textProfile (earlier ++ language :: later) =
  (score textProfile language, languageCode language).
Proof.
  intros Hpos Hearlier Hlater. unfold rank.
  rewrite fold_left_app. cbn [fold_left].
  pose proof (rank_below _ _ Hearlier zero "Err" Hpos) as Hbelow.
  destruct (fold_left (rank_step textProfile) earlier (zero, "Err"))
    as [maxSim langCode].
  cbn [fst] in Hbelow.
  rewrite (rank_step_replace _ _ _ Hbelow).
  apply rank_keep. exact Hlater.
Qed.

Lemma rank_no_match languages :
  Forall (fun l => ltb zero (score textProfile l) = false) languages ->
  rank textProfile languages = (zero, "Err").
Proof. apply rank_keep. Qed.

End RankProperties.

Section IdentifyProperties.

Variable from_bytes : string -> option wstring.
Variable to_bytes : wstring -> option string.
Variable no_match_message : string.

(** C2, amended: when the conversions of the text succeed and no language
    scores strictly above 0 (in particular when there is no language),
    [identifyLanguage] returns the message literal of its copy of the
    source (line 121, line 267), an ordinary string. *)
Theorem identifyLanguage_no_match
  (text : Text) (textProfile : TrigramProfile) (languages : LanguageProfiles) :
  buildTrigramProfile from_bytes to_bytes text = Ok textProfile ->
  Forall (fun l => ltb zero (score textProfile l) = false) languages ->
  identifyLanguage from_bytes to_bytes no_match_message text languages =
  Ok no_match_message.
Proof.
  intros Hbuild Hscores. unfold identifyLanguage.
  rewrite Hbuild. cbn [bind].
  rewrite (rank_no_match _ _ Hscores). reflexivity.
Qed.

(** C3, amended: the best score starts at 0 and is replaced only by a
    strictly greater one.  A language whose score is strictly positive,
    strictly above the score of every earlier language and not exceeded
    by any later one (ties with later languages included) is the one
    returned, provided its code is not the string "Err"; and for the same
    text no language at all is returned from a collection in which no
    score is strictly above 0, however many languages tie there. *)
Theorem identifyLanguage_first_best
  (text : Text) (textProfile : TrigramProfile)
  (earlier : LanguageProfiles) (language : LanguageProfile)
  (later : LanguageProfiles) :
  buildTrigramProfile from_bytes to_bytes text = Ok textProfile ->
  ltb zero (score textProfile language) = true ->
  Forall (fun l => ltb (score textProfile l) (score textProfile language) = true)
         earlier ->
  Forall (fun l => ltb (score textProfile language) (score textProfile l) = false)
         later ->
  languageCode language <> "Err" ->
  identifyLanguage from_bytes to_bytes no_match_message text
    (earlier ++ language :: later) = Ok (languageCode language) /\
  (forall languages,
     Forall (fun l => ltb zero (score textProfile l) = false) languages ->
     identifyLanguage from_bytes to_bytes no_match_message text languages =
     Ok no_match_message).
Proof.
  intros Hbuild Hpos Hearlier Hlater Hcode.
  unfold identifyLanguage. rewrite Hbuild. cbn [bind]. split.
  - rewrite (rank_select _ _ _ _ Hpos Hearlier Hlater).
    apply String.eqb_neq in Hcode. rewrite Hcode. reflexivity.
  - intros languages Hscores.
    rewrite (rank_no_match _ _ Hscores). reflexivity.
Qed.

(** C10, amended: a language whose code is "Err" and which is the
    selected best match (strictly positive score, strictly above every
    earlier language, not exceeded by any later one) is reported as no
    match: the message literal, which is not "Err", is returned instead
    of its code. *)
Theorem identifyLanguage_err_code_collides
  (text : Text) (textProfile : TrigramProfile)
  (earlier : LanguageProfiles) (language : LanguageProfile)
  (later : LanguageProfiles) :
  no_match_message <> "Err" ->
  buildTrigramProfile from_bytes to_bytes text = Ok textProfile ->
  languageCode language = "Err" ->
  ltb zero (score textProfile language) = true ->
  Forall (fun l => ltb (score textProfile l) (score textProfile language) = true)
         earlier ->
  Forall (fun l => ltb (score textProfile language) (score textProfile l) = false)
         later ->
  identifyLanguage from_bytes to_bytes no_match_message text
    (earlier ++ language :: later) = Ok no_match_message /\
  no_match_message <> languageCode language.
Proof.
  intros Hmessage Hbuild Hcode Hpos Hearlier Hlater. split.
  - unfold identifyLanguage. rewrite Hbuild. cbn [bind].
    rewrite (rank_select _ _ _ _ Hpos Hearlier Hlater), Hcode. reflexivity.
  - rewrite Hcode. exact Hmessage.
Qed.

End IdentifyProperties.

(** ** The theorems at concrete inputs, with the two facets *)

Lemma buildTrigramProfile_counts_witness :
  (exists profile,
     utf8_buildTrigramProfile ["the cat"; "at"; ("cat" ++ byte 13)%string] = Ok profile /\
     forall k,
       find k profile =
       count_value
         (count_occ string_dec
            ["the"; "he "; "e c"; " ca"; "cat"; "at"; "t"; "cat"; "at"; "t"] k)) /\
  (forall us i, List.length (window us i) = Nat.min 3 (List.length us - i)).
Proof.
  apply (buildTrigramProfile_counts Utf8.from_bytes Utf8.to_bytes
           ["the cat"; "at"; ("cat" ++ byte 13)%string]).
  vm_compute. reflexivity.
Defined.

Lemma buildTrigramProfile_rejects_undecodable_witness :
  utf8_buildTrigramProfile ["the cat"; ("ab" ++ byte 255 ++ "cd")%string] =
  Throw range_error.
Proof.
  apply (buildTrigramProfile_rejects_undecodable Utf8.from_bytes Utf8.to_bytes
           ["the cat"; ("ab" ++ byte 255 ++ "cd")%string] ("ab" ++ byte 255 ++ "cd")%string).
  - right. left. reflexivity.
  - vm_compute. reflexivity.
Defined.

Lemma buildTrigramProfile_short_lines_witness :
  utf8_buildTrigramProfile
    ["ab"; ""; ("at" ++ byte 13)%string; (byte 195 ++ byte 179 ++ "n")%string] = Ok [].
Proof.
  apply (buildTrigramProfile_short_lines Utf8.from_bytes Utf8.to_bytes).
  repeat constructor.
  - exists [97; 98]%N. split; [vm_compute; reflexivity | cbn; lia].
  - exists []. split; [vm_compute; reflexivity | cbn; lia].
  - exists [97; 116]%N. split; [vm_compute; reflexivity | cbn; lia].
  - exists [243; 110]%N. split; [vm_compute; reflexivity | cbn; lia].
Defined.

(** C2, as stated, fails.  The value returned for no match is an ordinary
    string: with a collection whose only language scores 0 and carries
    that string as its code, no language scores above 0 and the result is
    a language code of the collection.  And for a text that the converter
    rejects the call throws, also with the empty collection. *)
Lemma no_match_is_not_distinguishable :
  let named := language message_line_121 [("xyz", one)] in
  (exists textProfile,
     utf16_buildTrigramProfile ["abc"] = Ok textProfile /\
     Forall (fun l => ltb zero (score textProfile l) = false) [named]) /\
  utf16_identifyLanguage ["abc"] [named] = Ok (languageCode named) /\
  utf16_identifyLanguage [byte 255] [] = Throw range_error.
Proof.
  cbv zeta. repeat split.
  eexists. split; [reflexivity | repeat constructor].
Qed.

Lemma identifyLanguage_no_match_witness :
  utf16_identifyLanguage ["the cat sat"]
    [language "fr" [("le ", one)]; language "de" [("der", one)]] =
  Ok message_line_121 /\
  utf16_identifyLanguage ["the cat sat"] [] = Ok message_line_121 /\
  utf8_identifyLanguage ["the cat sat"] [] = Ok message_line_267.
Proof.
  split; [|split].
  - eapply (identifyLanguage_no_match Utf8Utf16.from_bytes Utf8Utf16.to_bytes
              message_line_121).
    + reflexivity.
    + repeat constructor.
  - eapply (identifyLanguage_no_match Utf8Utf16.from_bytes Utf8Utf16.to_bytes
              message_line_121).
    + reflexivity.
    + constructor.
  - eapply (identifyLanguage_no_match Utf8.from_bytes Utf8.to_bytes
              message_line_267).
    + reflexivity.
    + constructor.
Defined.

(** C3, as stated, fails: two languages that both score exactly 0 share
    the top score, yet the earlier one is not returned: no language is.
    And with an equal positive top score, an earliest language whose code
    is "Err" is not returned either. *)
Lemma equal_top_scores_without_first_returned :
  let fr := language "fr" [("le ", one)] in
  let de := language "de" [("der", one)] in
  let err := language "Err" [("abc", one)] in
  let en := language "en" [("abc", one)] in
  (exists textProfile,
     utf16_buildTrigramProfile ["abc"] = Ok textProfile /\
     score textProfile fr = zero /\ score textProfile de = zero /\
     score textProfile err = one /\ score textProfile en = one) /\
  utf16_identifyLanguage ["abc"] [fr; de] = Ok message_line_121 /\
  utf16_identifyLanguage ["abc"] [fr; de] <> Ok (languageCode fr) /\
  utf16_identifyLanguage ["abc"] [err; en] = Ok message_line_121 /\
  utf16_identifyLanguage ["abc"] [err; en] <> Ok (languageCode err).
Proof.
  cbv zeta. repeat split; try (vm_compute; discriminate).
  eexists. split; [reflexivity|]. repeat split.
Qed.

Lemma identifyLanguage_first_best_witness :
  utf16_identifyLanguage ["the cat sat"]
    [language "fr" [("le ", one)];
     language "en" [("the", one)];
     language "nl" [("cat", one)];
     language "de" [("der", one)]] = Ok "en" /\
  utf16_identifyLanguage ["the cat sat"]
    [language "fr" [("le ", one)]; language "de" [("der", one)]] =
  Ok message_line_121.
Proof.
  assert (H := fun Hbuild Hpos Hearlier Hlater Hcode =>
            identifyLanguage_first_best
              Utf8Utf16.from_bytes Utf8Utf16.to_bytes message_line_121
              ["the cat sat"]
              [(" ca", one); (" sa", one); ("at", one); ("at ", one);
               ("cat", one); ("e c", one); ("he ", one); ("sat", one);
               ("t", one); ("t s", one); ("the", one)]
              [language "fr" [("le ", one)]]
              (language "en" [("the", one)])
              [language "nl" [("cat", one)]; language "de" [("der", one)]]
              Hbuild Hpos Hearlier Hlater Hcode).
  destruct H as [Hfirst Hnone].
  - reflexivity.
  - reflexivity.
  - repeat constructor.
  - repeat constructor.
  - discriminate.
  - split; [exact Hfirst|]. apply Hnone. repeat constructor.
Defined.

(** C10, as stated, fails: when the language "Err" attains the highest
    strictly positive score but an earlier language attains it too, the
    earlier language keeps the candidacy and its code is returned, not
    the message. *)
Lemma err_language_tied_with_earlier_is_not_reported :
  let en := language "en" [("abc", one)] in
  let err := language "Err" [("abc", one)] in
  (exists textProfile,
     utf16_buildTrigramProfile ["abc"] = Ok textProfile /\
     score textProfile err = one /\ score textProfile en = one /\
     ltb zero (score textProfile err) = true /\
     Forall (fun l => ltb (score textProfile err) (score textProfile l) = false)
            [en; err]) /\
  utf16_identifyLanguage ["abc"] [en; err] = Ok "en" /\
  utf16_identifyLanguage ["abc"] [en; err] <> Ok message_line_121.
Proof.
  cbv zeta. repeat split; try (vm_compute; discriminate).
  eexists. split; [reflexivity|]. repeat split. repeat constructor.
Qed.

Lemma identifyLanguage_err_code_collides_witness :
  utf16_identifyLanguage ["the cat sat"]
    [language "fr" [("le ", one)];
     language "Err" [("the", one)];
     language "nl" [("cat", one)]] = Ok message_line_121 /\
  message_line_121 <> "Err".
Proof.
  eapply (identifyLanguage_err_code_collides
            Utf8Utf16.from_bytes Utf8Utf16.to_bytes message_line_121
            ["the cat sat"] _
            [language "fr" [("le ", one)]]
            (language "Err" [("the", one)])
            [language "nl" [("cat", one)]]).
  - vm_compute. discriminate.
  - reflexivity.
  - reflexivity.
  - vm_compute. reflexivity.
  - repeat constructor.
  - repeat constructor.
Defined.

(** C5: with the facet of line 28 the wide string holds UTF-16 code
    units.  The line "a", U+1F600, "b" is well-formed and has 3 code
    points, but 4 units; the window at index 2 starts with the low
    surrogate, [to_bytes] fails on it and the call throws instead of
    counting the windows.  With the facet of line 158 the three windows
    of the three code points are counted. *)
Theorem utf16_facet_throws_on_supplementary_character :
  let line := ("a" ++ smiley ++ "b")%string in
  Rfc3629.code_points line = Some [97; 128512; 98]%N /\
  Utf8Utf16.from_bytes (strip_cr line) = Some [97; 55357; 56832; 98]%N /\
  Utf8Utf16.to_bytes (window [97; 55357; 56832; 98]%N 2) = None /\
  utf16_buildTrigramProfile [line] = Throw range_error /\
  utf8_buildTrigramProfile [line] =
    Ok [(line, one); ("b", one); ((smiley ++ "b")%string, one)].
Proof. cbv zeta. repeat split. Qed.

(** C8: with the facet of line 28 the test of line 41 counts UTF-16 code
    units.  The line U+1F600, "a" is well-formed and has 2 code points,
    but 3 units: it is not skipped, and the call throws on the window
    that starts with the low surrogate instead of returning the empty
    mapping.  With the facet of line 158 the line is skipped. *)
Theorem utf16_facet_keeps_short_supplementary_line :
  let line := (smiley ++ "a")%string in
  Rfc3629.code_points line = Some [128512; 97]%N /\
  Utf8Utf16.from_bytes (strip_cr line) = Some [55357; 56832; 97]%N /\
  Utf8Utf16.to_bytes (window [55357; 56832; 97]%N 1) = None /\
  utf16_buildTrigramProfile [line] = Throw range_error /\
  utf8_buildTrigramProfile [line] = Ok [].
Proof. cbv zeta. repeat split. Qed.

(** C7, as stated, fails: a line that ends in the first byte of a
    two-byte sequence is not well-formed UTF-8, yet the converter only
    reports it as incomplete, [from_bytes] returns the text before it,
    and the call returns the profile of "abc", with either facet. *)
Lemma truncated_sequence_is_not_rejected :
  let line := ("abc" ++ byte 195)%string in
  Rfc3629.code_points line = None /\
  utf16_buildTrigramProfile [line] =
    Ok [("abc", one); ("bc", one); ("c", one)] /\
  utf8_buildTrigramProfile [line] =
    Ok [("abc", one); ("bc", one); ("c", one)].
Proof. cbv zeta. repeat split. Qed.

(** * Further properties of the four functions *)

(** ** The order of binary32 values *)

Lemma finite_ltb_trans (s1 s2 s3 : bool) (m1 m2 m3 : positive) (e1 e2 e3 : Z) :
  ltb (S754_finite s1 m1 e1) (S754_finite s2 m2 e2) = true ->
  ltb (S754_finite s2 m2 e2) (S754_finite s3 m3 e3) = true ->
  ltb (S754_finite s1 m1 e1) (S754_finite s3 m3 e3) = true.
Proof.
  unfold ltb, SFltb, SFcompare.
  change (Pos.compare_cont Eq) with Pos.compare.
  destruct s1, s2, s3; try (intros; reflexivity); try discriminate;
    destruct (Z.compare_spec e1 e2), (Z.compare_spec e2 e3),
             (Z.compare_spec e1 e3); try lia; try discriminate;
    try (intros; reflexivity);
    destruct (Pos.compare_spec m1 m2), (Pos.compare_spec m2 m3),
             (Pos.compare_spec m1 m3); cbn; try lia; try discriminate;
    try (intros; reflexivity).
Qed.

Lemma float_ltb_trans (a b c : float) :
  ltb a b = true -> ltb b c = true -> ltb a c = true.
Proof.
  destruct a as [sa|sa| |sa ma ea], b as [sb|sb| |sb mb eb],
           c as [sc|sc| |sc mc ec];
    try apply finite_ltb_trans;
    unfold ltb, SFltb, SFcompare;
    try discriminate; try (intros; reflexivity);
    repeat match goal with s : bool |- _ => destruct s end;
    try discriminate; try (intros; reflexivity).
Qed.

Lemma float_ltb_irrefl (a : float) : ltb a a = false.
Proof.
  destruct a as [s|s| |s m e]; unfold ltb, SFltb, SFcompare;
    try reflexivity; try (destruct s; reflexivity).
  change (Pos.compare_cont Eq) with Pos.compare.
  rewrite Z.compare_refl, Pos.compare_refl. destruct s; reflexivity.
Qed.

(** [m] is [+0] or strictly above it: what [maxSim] always is. *)
Lemma at_least_zero_below (m x : float) :
  m = zero \/ ltb zero m = true ->
  ltb m x = true -> ltb zero x = true.
Proof.
  intros [->|Hm] Hx; [exact Hx | exact (float_ltb_trans _ _ _ Hm Hx)].
Qed.

(** ** The ranking loop *)

Section RankInvariants.

Variable textProfile : TrigramProfile.

Lemma rank_step_cases maxSim langCode l :
  (ltb maxSim (score textProfile l) = false /\
   rank_step textProfile (maxSim, langCode) l = (maxSim, langCode)) \/
  (ltb maxSim (score textProfile l) = true /\
   rank_step textProfile (maxSim, langCode) l =
   (score textProfile l, languageCode l)).
Proof.
  destruct (ltb maxSim (score textProfile l)) eqn:E.
  - right. split; [reflexivity | exact (rank_step_replace _ _ _ _ E)].
  - left. split; [reflexivity | exact (rank_step_keep _ _ _ _ E)].
Qed.

(** The best score never decreases. *)
Lemma rank_monotone languages :
  forall maxSim langCode,
    let st := fold_left (rank_step textProfile) languages (maxSim, langCode) in
    fst st = maxSim \/ ltb maxSim (fst st) = true.
Proof.
  induction languages as [|l languages IH]; intros maxSim langCode;
    [left; reflexivity|].
  cbn [fold_left].
  destruct (rank_step_cases maxSim langCode l) as [[_ ->]|[Hl ->]].
  - apply IH.
  - destruct (IH (score textProfile l) (languageCode l)) as [E|E].
    + right. cbv zeta in E. rewrite E. exact Hl.
    + right. exact (float_ltb_trans _ _ _ Hl E).
Qed.

(** No language scores strictly above the final best score. *)
Lemma rank_maximal languages :
  forall maxSim langCode,
    Forall (fun l => ltb (fst (fold_left (rank_step textProfile) languages
                                 (maxSim, langCode)))
                         (score textProfile l) = false) languages.
Proof.
  induction languages as [|l languages IH]; intros maxSim langCode;
    [constructor|].
  cbn [fold_left].
  destruct (rank_step_cases maxSim langCode l) as [[Hl ->]|[Hl ->]];
    (constructor; [|apply IH]).
  - destruct (rank_monotone languages maxSim langCode) as [E|E];
      cbv zeta in E.
    + rewrite E. exact Hl.
    + apply not_true_is_false. intros Habove.
      rewrite (float_ltb_trans _ _ _ E Habove) in Hl. discriminate.
  - destruct (rank_monotone languages (score textProfile l) (languageCode l))
      as [E|E]; cbv zeta in E.
    + rewrite E. apply float_ltb_irrefl.
    + apply not_true_is_false. intros Habove.
      pose proof (float_ltb_trans _ _ _ E Habove) as Hcycle.
      rewrite float_ltb_irrefl in Hcycle. discriminate.
Qed.

(** The final candidate is the initial one, or a language of the
    collection with a strictly positive score. *)
Lemma rank_origin languages :
  forall maxSim langCode,
    maxSim = zero \/ ltb zero maxSim = true ->
    let st := fold_left (rank_step textProfile) languages (maxSim, langCode) in
    st = (maxSim, langCode) \/
    exists l, In l languages /\
              st = (score textProfile l, languageCode l) /\
              ltb zero (score textProfile l) = true.
Proof.
  induction languages as [|l languages IH]; intros maxSim langCode Hm;
    [left; reflexivity|].
  cbn [fold_left].
  destruct (rank_step_cases maxSim langCode l) as [[_ ->]|[Hl ->]].
  - destruct (IH maxSim langCode Hm) as [E|[l' [Hin [E Hpos]]]].
    + left. exact E.
    + right. exists l'. split; [right; exact Hin|]. split; assumption.
  - pose proof (at_least_zero_below _ _ Hm Hl) as Hpos.
    destruct (IH (score textProfile l) (languageCode l) (or_intror Hpos))
      as [E|[l' [Hin [E Hpos']]]].
    + right. exists l. split; [left; reflexivity|]. split; assumption.
    + right. exists l'. split; [right; exact Hin|]. split; assumption.
Qed.

(** Languages that do not score strictly above 0 never change the state
    of the loop. *)
Lemma rank_filter_positive languages :
  forall maxSim langCode,
    maxSim = zero \/ ltb zero maxSim = true ->
    fold_left (rank_step textProfile) languages (maxSim, langCode) =
    fold_left (rank_step textProfile)
              (filter (positive_score textProfile) languages)
              (maxSim, langCode).
Proof.
  induction languages as [|l languages IH]; intros maxSim langCode Hm;
    [reflexivity|].
  cbn [fold_left filter].
  destruct (positive_score textProfile l) eqn:Hpos.
  - cbn [fold_left].
    destruct (rank_step_cases maxSim langCode l) as [[_ ->]|[Hl ->]].
    + apply IH. exact Hm.
    + apply IH. right. exact Hpos.
  - destruct (rank_step_cases maxSim langCode l) as [[_ ->]|[Hl ->]].
    + apply IH. exact Hm.
    + unfold positive_score in Hpos.
      rewrite (at_least_zero_below _ _ Hm Hl) in Hpos. discriminate.
Qed.

End RankInvariants.

(** ** [identifyLanguage]: what is returned *)

Section IdentifyResults.

Variable from_bytes : string -> option wstring.
Variable to_bytes : wstring -> option string.
Variable no_match_message : string.

(** X1: a string returned by [identifyLanguage] is the no-match message
    or the code of a language of the collection whose score is strictly
    positive and which no language of the collection exceeds. *)
Theorem identifyLanguage_returns_best
  (text : Text) (textProfile : TrigramProfile) (languages : LanguageProfiles)
  (code : string) :
  buildTrigramProfile from_bytes to_bytes text = Ok textProfile ->
  identifyLanguage from_bytes to_bytes no_match_message text languages = Ok code ->
  code = no_match_message \/
  exists l,
    In l languages /\ languageCode l = code /\
    ltb zero (score textProfile l) = true /\
    Forall (fun l' => ltb (score textProfile l) (score textProfile l') = false)
           languages.
Proof.
  intros Hbuild. unfold identifyLanguage. rewrite Hbuild. cbn [bind].
  unfold rank.
  pose proof (rank_maximal textProfile languages zero "Err") as Hmax.
  destruct (rank_origin textProfile languages zero "Err"
              (or_introl eq_refl)) as [E|[l [Hin [E Hpos]]]];
    cbv zeta in E; rewrite E in *; cbn [fst] in Hmax.
  - cbn. intros H. injection H as <-. left. reflexivity.
  - destruct (languageCode l =? "Err"); intros H; injection H as <-.
    + left. reflexivity.
    + right. exists l. repeat split; assumption.
Qed.

(** X2: languages that do not score strictly above 0 (a zero, negative
    or NaN score) have no influence: dropping them from the collection
    leaves the result unchanged. *)
Theorem identifyLanguage_ignores_nonpositive
  (text : Text) (textProfile : TrigramProfile) (languages : LanguageProfiles) :
  buildTrigramProfile from_bytes to_bytes text = Ok textProfile ->
  identifyLanguage from_bytes to_bytes no_match_message text languages =
  identifyLanguage from_bytes to_bytes no_match_message text
    (filter (positive_score textProfile) languages).
Proof.
  intros Hbuild. unfold identifyLanguage. rewrite Hbuild. cbn [bind].
  unfold rank.
  rewrite (rank_filter_positive textProfile languages zero "Err"
             (or_introl eq_refl)).
  reflexivity.
Qed.

(** X3: a text with a line the converter cannot decode makes
    [identifyLanguage] throw [std::range_error], whatever the languages:
    the no-match message is not returned for such a text. *)
Theorem identifyLanguage_rejects_undecodable
  (text : Text) (line : string) (languages : LanguageProfiles) :
  In line text -> from_bytes (strip_cr line) = None ->
  identifyLanguage from_bytes to_bytes no_match_message text languages = Throw range_error.
Proof.
  intros Hin Hbad. unfold identifyLanguage, buildTrigramProfile.
  rewrite build_lines_trigrams, (text_trigrams_fails _ _ _ _ Hin Hbad).
  reflexivity.
Qed.

End IdentifyResults.

(** ** [getCosineSimilarity]: which entries matter *)

(** X4: although the language profile is passed by non-const reference
    and read with [operator[]], a call leaves it exactly as it was: the
    subscript is only reached for keys that [find] has found, so nothing
    is ever inserted. *)
Theorem getCosineSimilarity_preserves_language_profile
  (textProfile languageProfile : TrigramProfile) :
  getCosineSimilarity_run textProfile languageProfile =
  (languageProfile, getCosineSimilarity textProfile languageProfile).
Proof.
  unfold getCosineSimilarity, getCosineSimilarity_run.
  rewrite cosine_run_from. reflexivity.
Qed.

Lemma shared_nil_of_disjoint (a b : TrigramProfile) :
  (forall k, contains a k = true -> contains b k = false) ->
  shared a b = [].
Proof.
  unfold shared. induction a as [|[k v] a IH]; intros H; [reflexivity|].
  cbn [filter fst].
  assert (Hk : contains b k = false).
  { apply H. unfold contains. cbn [find]. rewrite String.eqb_refl. reflexivity. }
  rewrite Hk. apply IH.
  intros k' Hk'. apply H. unfold contains in *. cbn [find].
  destruct (k' =? k); [reflexivity | exact Hk'].
Qed.

(** X5: two profiles without a common trigram (in particular when one of
    them is empty) score exactly [+0]. *)
Theorem getCosineSimilarity_disjoint (a b : TrigramProfile) :
  (forall k, contains a k = true -> contains b k = false) ->
  getCosineSimilarity a b = zero.
Proof.
  intros H. unfold getCosineSimilarity, getCosineSimilarity_run.
  rewrite cosine_run_from. unfold shared_products.
  rewrite (shared_nil_of_disjoint a b H). reflexivity.
Qed.

Lemma getCosineSimilarity_disjoint_witness :
  getCosineSimilarity [("cat", of_Z 2); ("the", of_Z 3)]
                      [("der", of_Z 5); ("und", of_Z 7)] = zero /\
  getCosineSimilarity [("cat", of_Z 2); ("the", of_Z 3)] [] = zero.
Proof.
  split.
  - apply getCosineSimilarity_disjoint.
    intros k. unfold contains. cbn [find].
    destruct (k =? "cat") eqn:E1.
    + apply String.eqb_eq in E1. subst k. reflexivity.
    + destruct (k =? "the") eqn:E2; [|discriminate].
      apply String.eqb_eq in E2. subst k. reflexivity.
  - apply getCosineSimilarity_disjoint. reflexivity.
Defined.

(** X6: the score only reads the language profile under the keys of the
    text profile: two language profiles that agree on those keys give
    the same score, whatever other entries they hold. *)
Theorem getCosineSimilarity_reads_text_keys_only (a b b' : TrigramProfile) :
  (forall k, contains a k = true -> find k b = find k b') ->
  getCosineSimilarity a b = getCosineSimilarity a b'.
Proof.
  intros H. unfold getCosineSimilarity, getCosineSimilarity_run.
  rewrite !cosine_run_from. cbn [snd]. f_equal.
  unfold shared_products, shared.
  induction a as [|[k v] a IH]; [reflexivity|].
  assert (Hk : find k b = find k b').
  { apply H. unfold contains. cbn [find]. rewrite String.eqb_refl. reflexivity. }
  assert (Ha : forall k', contains a k' = true -> find k' b = find k' b').
  { intros k' Hk'. apply H. unfold contains in *. cbn [find].
    destruct (k' =? k); [reflexivity | exact Hk']. }
  assert (Hc : contains b' k = contains b k)
    by (unfold contains; rewrite Hk; reflexivity).
  assert (Hw : weight b' k = weight b k)
    by (unfold weight; rewrite Hk; reflexivity).
  cbn [filter fst]. rewrite Hc.
  destruct (contains b k); [|exact (IH Ha)].
  cbn [map fst snd]. rewrite Hw. f_equal. exact (IH Ha).
Qed.

Lemma getCosineSimilarity_reads_text_keys_only_witness :
  getCosineSimilarity [("cat", of_Z 2); ("the", of_Z 3)]
                      [("the", of_Z 5)] =
  getCosineSimilarity [("cat", of_Z 2); ("the", of_Z 3)]
                      [("der", of_Z 9); ("the", of_Z 5); ("und", of_Z 7)].
Proof.
  apply getCosineSimilarity_reads_text_keys_only.
  intros k. unfold contains. cbn [find].
  destruct (k =? "cat") eqn:E1.
  - apply String.eqb_eq in E1. subst k. reflexivity.
  - destruct (k =? "the") eqn:E2; [|discriminate].
    apply String.eqb_eq in E2. subst k. reflexivity.
Defined.

(** ** [normalizeTrigramProfile]: a zero total *)

Lemma div_by_zero_not_finite (x : float) (s : bool) :
  is_finite (div x (S754_zero s)) = false.
Proof. destruct x; reflexivity. Qed.

(** X7: there is no guard on the total: when the counts sum to zero
    (of either sign), every value of the profile is divided by zero and
    becomes an infinity or a NaN. *)
Theorem normalize_zero_total_not_finite (p : TrigramProfile) (s : bool) :
  float_sum (map snd p) = S754_zero s ->
  Forall (fun el => is_finite (snd el) = false) (normalizeTrigramProfile p).
Proof.
  intros H. unfold normalizeTrigramProfile.
  rewrite profile_total_sum, H. cbn [sqrt SFsqrt].
  apply Forall_forall. intros el Hin.
  apply in_map_iff in Hin. destruct Hin as [el0 [<- _]].
  cbn [snd]. apply div_by_zero_not_finite.
Qed.

Lemma normalize_zero_total_not_finite_witness :
  Forall (fun el => is_finite (snd el) = false)
         (normalizeTrigramProfile
            [("cat", of_Z 2); ("der", of_Z 0); ("the", of_Z (-2))]).
Proof.
  apply (normalize_zero_total_not_finite
           [("cat", of_Z 2); ("der", of_Z 0); ("the", of_Z (-2))] false).
  reflexivity.
Defined.

(** ** [buildTrigramProfile]: keys, line order, line ends *)

(** Two maps with the same lookups are the same map. *)
Lemma ordered_ext (p : TrigramProfile) :
  forall q, ordered p = true -> ordered q = true ->
            (forall k, find k p = find k q) -> p = q.
Proof.
  induction p as [|[kp vp] p IH]; intros [|[kq vq] q] Hp Hq H.
  - reflexivity.
  - specialize (H kq). cbn [find] in H. rewrite String.eqb_refl in H.
    discriminate.
  - specialize (H kp). cbn [find] in H. rewrite String.eqb_refl in H.
    discriminate.
  - destruct (ordered_cons_inv _ _ _ Hp) as [Hp' Hpa].
    destruct (ordered_cons_inv _ _ _ Hq) as [Hq' Hqa].
    assert (Hk : kp = kq).
    { destruct (String.compare kp kq) eqn:C.
      - exact (key_compare_eq _ _ C).
      - exfalso. pose proof (H kp) as E. cbn [find] in E.
        rewrite String.eqb_refl, (key_lt_neq _ _ C) in E.
        rewrite (find_none_above _ _ (key_lt_above _ _ _ C Hqa)) in E.
        discriminate.
      - exfalso. apply key_gt_lt in C. pose proof (H kq) as E.
        cbn [find] in E.
        rewrite String.eqb_refl, (key_lt_neq _ _ C) in E.
        rewrite (find_none_above _ _ (key_lt_above _ _ _ C Hpa)) in E.
        discriminate. }
    subst kq.
    assert (Hv : vp = vq).
    { pose proof (H kp) as E. cbn [find] in E.
      rewrite String.eqb_refl in E. congruence. }
    subst vq. f_equal. apply (IH q Hp' Hq').
    intros k. pose proof (H k) as E. cbn [find] in E.
    destruct (k =? kp) eqn:Ek; [|exact E].
    apply String.eqb_eq in Ek. subst k.
    rewrite (find_none_above _ _ Hpa), (find_none_above _ _ Hqa).
    reflexivity.
Qed.

(** The profile of a sequence of keys does not depend on their order. *)
Lemma tally_permutation (ks ks' : list string) :
  Permutation ks ks' -> tally ks [] = tally ks' [].
Proof.
  intros H. apply ordered_ext.
  - apply ordered_tally. reflexivity.
  - apply ordered_tally. reflexivity.
  - intros k. rewrite !find_tally.
    rewrite (proj1 (Permutation_count_occ string_dec ks ks') H k).
    reflexivity.
Qed.

Lemma count_value_none (n : nat) : count_value n = None <-> n = O.
Proof.
  destruct n as [|n]; [split; reflexivity|].
  cbn [count_value]. unfold one_more.
  destruct (count_value n); split; discriminate.
Qed.

Lemma contains_tally (ks : list string) (k : string) :
  contains (tally ks []) k = true <-> In k ks.
Proof.
  unfold contains. rewrite find_tally, <- count_value_iter.
  rewrite (count_occ_In string_dec).
  destruct (count_value (count_occ string_dec ks k)) eqn:E.
  - split; [|reflexivity]. intros _.
    destruct (count_occ string_dec ks k);
      [discriminate E | apply Nat.lt_0_succ].
  - apply count_value_none in E. rewrite E.
    split; [discriminate | intros H; inversion H].
Qed.

Section BuildFurther.

Variable from_bytes : string -> option wstring.
Variable to_bytes : wstring -> option string.
Variable no_match_message : string.

Lemma text_trigrams_app (text text' : Text) :
  text_trigrams from_bytes to_bytes (text ++ text') =
  match text_trigrams from_bytes to_bytes text,
        text_trigrams from_bytes to_bytes text' with
  | Some ks, Some ks' => Some (ks ++ ks')
  | _, _ => None
  end.
Proof.
  induction text as [|line text IH].
  - cbn. destruct (text_trigrams from_bytes to_bytes text'); reflexivity.
  - cbn [app text_trigrams]. rewrite IH.
    destruct (line_trigrams from_bytes to_bytes line) as [kl|]; [|reflexivity].
    destruct (text_trigrams from_bytes to_bytes text) as [ks|]; [|reflexivity].
    destruct (text_trigrams from_bytes to_bytes text') as [ks'|]; [|reflexivity].
    rewrite app_assoc. reflexivity.
Qed.

(** Reordering the lines reorders the keys, and keeps a failure a
    failure. *)
Lemma text_trigrams_permutation (text text' : Text) :
  Permutation text text' ->
  match text_trigrams from_bytes to_bytes text,
        text_trigrams from_bytes to_bytes text' with
  | Some ks, Some ks' => Permutation ks ks'
  | None, None => True
  | _, _ => False
  end.
Proof.
  induction 1 as [|x l l' _ IH|x y l|l l' l'' _ IH1 _ IH2].
  - constructor.
  - cbn [text_trigrams].
    destruct (line_trigrams from_bytes to_bytes x) as [kx|]; [|exact I].
    destruct (text_trigrams from_bytes to_bytes l),
             (text_trigrams from_bytes to_bytes l'); try exact IH.
    apply Permutation_app_head. exact IH.
  - cbn [text_trigrams].
    destruct (line_trigrams from_bytes to_bytes x) as [kx|],
             (line_trigrams from_bytes to_bytes y) as [ky|],
             (text_trigrams from_bytes to_bytes l) as [kl|]; try exact I.
    apply Permutation_app_swap_app.
  - destruct (text_trigrams from_bytes to_bytes l),
             (text_trigrams from_bytes to_bytes l'),
             (text_trigrams from_bytes to_bytes l'');
      try contradiction; try exact I.
    exact (Permutation_trans IH1 IH2).
Qed.

(** X8: the profile does not depend on the order of the lines: a
    reordered text gives the same map, or the same exception. *)
Theorem buildTrigramProfile_line_order (text text' : Text) :
  Permutation text text' ->
  buildTrigramProfile from_bytes to_bytes text =
  buildTrigramProfile from_bytes to_bytes text'.
Proof.
  intros H. unfold buildTrigramProfile. rewrite !build_lines_trigrams.
  pose proof (text_trigrams_permutation _ _ H) as Hks.
  destruct (text_trigrams from_bytes to_bytes text) as [ks|],
           (text_trigrams from_bytes to_bytes text') as [ks'|];
    try contradiction; [|reflexivity].
  rewrite (tally_permutation _ _ Hks). reflexivity.
Qed.

(** X9: [identifyLanguage] does not depend on the order of the lines of
    the text either. *)
Theorem identifyLanguage_line_order
  (text text' : Text) (languages : LanguageProfiles) :
  Permutation text text' ->
  identifyLanguage from_bytes to_bytes no_match_message text languages =
  identifyLanguage from_bytes to_bytes no_match_message text' languages.
Proof.
  intros H. unfold identifyLanguage, buildTrigramProfile.
  rewrite !build_lines_trigrams.
  pose proof (text_trigrams_permutation _ _ H) as Hks.
  destruct (text_trigrams from_bytes to_bytes text) as [ks|],
           (text_trigrams from_bytes to_bytes text') as [ks'|];
    try contradiction; [|reflexivity].
  rewrite (tally_permutation _ _ Hks). reflexivity.
Qed.

Lemma build_result_tally (text : Text) (profile : TrigramProfile) :
  buildTrigramProfile from_bytes to_bytes text = Ok profile ->
  exists ks, text_trigrams from_bytes to_bytes text = Some ks /\
             profile = tally ks [].
Proof.
  unfold buildTrigramProfile. rewrite build_lines_trigrams.
  destruct (text_trigrams from_bytes to_bytes text) as [ks|]; [|discriminate].
  intros H. injection H as <-. exists ks. split; reflexivity.
Qed.

Lemma in_encode_all (ws : list wstring) :
  forall ks k,
    encode_all to_bytes ws = Some ks ->
    (In k ks <-> exists w, In w ws /\ to_bytes w = Some k).
Proof.
  induction ws as [|w ws IH]; intros ks k H.
  - injection H as <-. split; [intros [] | intros [w [[] _]]].
  - cbn [encode_all] in H.
    destruct (to_bytes w) as [kw|] eqn:Ew; [|discriminate].
    destruct (encode_all to_bytes ws) as [ks0|]; [|discriminate].
    injection H as <-. specialize (IH ks0 k eq_refl). split.
    + intros [<-|Hin].
      * exists w. split; [left; reflexivity | exact Ew].
      * apply IH in Hin. destruct Hin as [w' [Hw' E']].
        exists w'. split; [right; exact Hw' | exact E'].
    + intros [w' [[<-|Hw'] E']].
      * left. congruence.
      * right. apply IH. exists w'. split; assumption.
Qed.

Lemma in_line_windows (us w : wstring) :
  In w (line_windows us) <->
  (3 <= List.length us)%nat /\
  exists i, (i < List.length us)%nat /\ w = window us i.
Proof.
  unfold line_windows.
  destruct (List.length us <? 3)%nat eqn:E.
  - apply Nat.ltb_lt in E. split; [intros [] | intros [H _]; lia].
  - apply Nat.ltb_ge in E. rewrite in_map_iff. split.
    + intros [i [<- Hi]]. apply in_seq in Hi.
      split; [exact E|]. exists i. split; [lia | reflexivity].
    + intros [_ [i [Hi ->]]]. exists i. split; [reflexivity|].
      apply in_seq. lia.
Qed.

(** The keys counted for a text are the encodings of the windows of its
    lines of at least 3 units. *)
Lemma in_text_trigrams (text : Text) :
  forall ks k,
    text_trigrams from_bytes to_bytes text = Some ks ->
    (In k ks <->
     exists line us i,
       In line text /\ from_bytes (strip_cr line) = Some us /\
       (3 <= List.length us)%nat /\ (i < List.length us)%nat /\
       to_bytes (window us i) = Some k).
Proof.
  induction text as [|line text IH]; intros ks k H.
  - injection H as <-.
    split; [intros [] | intros [l [us [i [[] _]]]]].
  - cbn [text_trigrams] in H.
    destruct (line_trigrams from_bytes to_bytes line) as [kl|] eqn:El;
      [|discriminate].
    destruct (text_trigrams from_bytes to_bytes text) as [kt|]; [|discriminate].
    injection H as <-. specialize (IH kt k eq_refl).
    unfold line_trigrams in El.
    destruct (from_bytes (strip_cr line)) as [us|] eqn:Eus; [|discriminate].
    pose proof (in_encode_all _ _ k El) as Hl.
    rewrite in_app_iff. split.
    + intros [Hin|Hin].
      * apply Hl in Hin. destruct Hin as [w [Hw Ew]].
        apply in_line_windows in Hw. destruct Hw as [Hlen [i [Hi ->]]].
        exists line, us, i. repeat split; try assumption. left. reflexivity.
      * apply IH in Hin.
        destruct Hin as [l' [us' [i [Hin' Hrest]]]].
        exists l', us', i. split; [right; exact Hin' | exact Hrest].
    + intros [l' [us' [i [[<-|Hin'] [Eus' [Hlen [Hi Ek]]]]]]].
      * left. apply Hl. exists (window us' i). split; [|exact Ek].
        rewrite Eus' in Eus. injection Eus as <-.
        apply in_line_windows. split; [exact Hlen|].
        exists i. split; [exact Hi | reflexivity].
      * right. apply IH. exists l', us', i. repeat split; assumption.
Qed.

(** X10: the keys of the returned profile are exactly the encodings of
    the windows taken at every index of every line of at least 3 units;
    each such window holds between 1 and 3 units. *)
Theorem buildTrigramProfile_keys
  (text : Text) (profile : TrigramProfile) (k : string) :
  buildTrigramProfile from_bytes to_bytes text = Ok profile ->
  (contains profile k = true <->
   exists line us i,
     In line text /\ from_bytes (strip_cr line) = Some us /\
     (3 <= List.length us)%nat /\ (i < List.length us)%nat /\
     to_bytes (window us i) = Some k /\
     (1 <= List.length (window us i) <= 3)%nat).
Proof.
  intros Hbuild.
  destruct (build_result_tally _ _ Hbuild) as [ks [Hks ->]].
  rewrite contains_tally, (in_text_trigrams text ks k Hks). split.
  - intros [line [us [i [Hin [Eus [Hlen [Hi Ek]]]]]]].
    exists line, us, i. repeat split; try assumption;
      rewrite window_length; lia.
  - intros [line [us [i [Hin [Eus [Hlen [Hi [Ek _]]]]]]]].
    exists line, us, i. repeat split; assumption.
Qed.

(** X11: the windows at the last two indices of a line are shorter than
    3 units, and they are counted all the same: the last 2 units and the
    last unit of every line of at least 3 units are keys of the
    profile. *)
Theorem buildTrigramProfile_counts_line_tails
  (text : Text) (profile : TrigramProfile) (line : string) (us : wstring) :
  buildTrigramProfile from_bytes to_bytes text = Ok profile ->
  In line text -> from_bytes (strip_cr line) = Some us ->
  (3 <= List.length us)%nat ->
  exists k2 k1,
    to_bytes (skipn (List.length us - 2) us) = Some k2 /\
    to_bytes (skipn (List.length us - 1) us) = Some k1 /\
    List.length (skipn (List.length us - 2) us) = 2%nat /\
    List.length (skipn (List.length us - 1) us) = 1%nat /\
    contains profile k2 = true /\ contains profile k1 = true.
Proof.
  intros Hbuild Hin Eus Hlen.
  destruct (build_result_tally _ _ Hbuild) as [ks [Hks ->]].
  assert (Htail : forall n, (1 <= n <= 3)%nat ->
            window us (List.length us - n) = skipn (List.length us - n) us).
  { intros n Hn. unfold window. apply firstn_all2.
    rewrite length_skipn. lia. }
  assert (Hkey : forall i, (i < List.length us)%nat ->
            exists k, to_bytes (window us i) = Some k /\ In k ks).
  { intros i Hi.
    destruct (to_bytes (window us i)) as [k|] eqn:Ek.
    - exists k. split; [reflexivity|].
      apply (in_text_trigrams text ks k Hks).
      exists line, us, i. repeat split; assumption.
    - exfalso.
      assert (Hnone : text_trigrams from_bytes to_bytes text = None);
        [|congruence].
      clear Hks Hbuild. induction text as [|l text IH]; [contradiction|].
      cbn [text_trigrams]. destruct Hin as [->|Hin].
      + unfold line_trigrams. rewrite Eus.
        assert (Henc : encode_all to_bytes (line_windows us) = None);
          [|rewrite Henc; reflexivity].
        assert (Hw : In (window us i) (line_windows us)).
        { apply in_line_windows. split; [exact Hlen|].
          exists i. split; [exact Hi | reflexivity]. }
        revert Hw. generalize (line_windows us) as ws.
        induction ws as [|w ws IHws]; intros Hw; [contradiction|].
        cbn [encode_all]. destruct Hw as [->|Hw].
        * rewrite Ek. reflexivity.
        * rewrite (IHws Hw). destruct (to_bytes w); reflexivity.
      + rewrite (IH Hin).
        destruct (line_trigrams from_bytes to_bytes l); reflexivity. }
  destruct (Hkey (List.length us - 2)%nat ltac:(lia)) as [k2 [E2 H2]].
  destruct (Hkey (List.length us - 1)%nat ltac:(lia)) as [k1 [E1 H1]].
  rewrite (Htail 2%nat ltac:(lia)) in E2.
  rewrite (Htail 1%nat ltac:(lia)) in E1.
  exists k2, k1. rewrite !length_skipn.
  repeat split; try assumption; try lia; apply contains_tally; assumption.
Qed.

(** X12: a line that decodes to fewer than 3 units contributes nothing,
    wherever it stands in the text. *)
Theorem buildTrigramProfile_skips_short_line
  (text text' : Text) (line : string) (us : wstring) :
  from_bytes (strip_cr line) = Some us -> (List.length us < 3)%nat ->
  buildTrigramProfile from_bytes to_bytes (text ++ line :: text') =
  buildTrigramProfile from_bytes to_bytes (text ++ text').
Proof.
  intros Eus Hlen. unfold buildTrigramProfile.
  rewrite !build_lines_trigrams, !text_trigrams_app.
  cbn [text_trigrams]. unfold line_trigrams, line_windows.
  rewrite Eus. apply Nat.ltb_lt in Hlen. rewrite Hlen.
  cbn [encode_all].
  destruct (text_trigrams from_bytes to_bytes text'); reflexivity.
Qed.

(** X13: neither function can end with [std::out_of_range]: [substr] is
    only called at positions inside the line.  A call returns normally or
    throws [std::range_error], and [identifyLanguage] returns exactly
    when [buildTrigramProfile] does. *)
Theorem substr_stays_in_range (text : Text) (languages : LanguageProfiles) :
  (exists profile code,
     buildTrigramProfile from_bytes to_bytes text = Ok profile /\
     identifyLanguage from_bytes to_bytes no_match_message text languages = Ok code) \/
  (buildTrigramProfile from_bytes to_bytes text = Throw range_error /\
   identifyLanguage from_bytes to_bytes no_match_message text languages = Throw range_error).
Proof.
  unfold identifyLanguage, buildTrigramProfile.
  rewrite build_lines_trigrams.
  destruct (text_trigrams from_bytes to_bytes text) as [ks|].
  - left. exists (tally ks []). cbn [bind].
    destruct (rank (tally ks []) languages) as [maxSim langCode].
    destruct (langCode =? "Err"); eexists; split; reflexivity.
  - right. split; reflexivity.
Qed.

End BuildFurther.

(** ** Line ends *)

Lemma length_add_cr (line : string) :
  String.length (add_cr line) = S (String.length line).
Proof.
  unfold add_cr. induction line as [|a line IH]; [reflexivity|].
  cbn [append String.length]. rewrite IH. reflexivity.
Qed.

Lemma get_last_add_cr (line : string) :
  String.get (String.length line) (add_cr line) = Some carriage_return.
Proof.
  unfold add_cr. induction line as [|a line IH]; [reflexivity|].
  cbn [append String.length String.get]. exact IH.
Qed.

Lemma substring_add_cr (line : string) :
  String.substring 0 (String.length line) (add_cr line) = line.
Proof.
  unfold add_cr. induction line as [|a line IH]; [reflexivity|].
  cbn [append String.length String.substring]. rewrite IH. reflexivity.
Qed.

(** X14: exactly one trailing carriage return is dropped: stripping a
    line to which one carriage return was appended gives the line back,
    also when the line itself ends with a carriage return. *)
Theorem strip_cr_add_cr (line : string) : strip_cr (add_cr line) = line.
Proof.
  unfold strip_cr. rewrite length_add_cr.
  cbn [Nat.ltb Nat.leb]. rewrite Nat.sub_1_r. cbn [Nat.pred].
  rewrite get_last_add_cr, Ascii.eqb_refl.
  apply substring_add_cr.
Qed.

Lemma strip_cr_unchanged (line : string) :
  ends_with_cr line = false -> strip_cr line = line.
Proof.
  unfold ends_with_cr, strip_cr.
  destruct (0 <? String.length line)%nat; [|reflexivity].
  destruct (String.get (String.length line - 1) line) as [c|]; [|reflexivity].
  cbn [andb]. intros ->. reflexivity.
Qed.

Section LineEnds.

Variable from_bytes : string -> option wstring.
Variable to_bytes : wstring -> option string.

(** X15: a text with CRLF line ends gives the same result as the text
    with bare line ends: appending one carriage return to every line of a
    text whose lines do not end with one changes nothing. *)
Theorem buildTrigramProfile_crlf (text : Text) :
  Forall (fun line => ends_with_cr line = false) text ->
  buildTrigramProfile from_bytes to_bytes (map add_cr text) =
  buildTrigramProfile from_bytes to_bytes text.
Proof.
  intros H. unfold buildTrigramProfile.
  generalize (@nil (string * float)) as profile.
  induction H as [|line text Hline _ IH]; intros profile; [reflexivity|].
  cbn [map build_lines].
  assert (Hsame : build_line from_bytes to_bytes profile (add_cr line) =
                  build_line from_bytes to_bytes profile line).
  { unfold build_line.
    rewrite strip_cr_add_cr, (strip_cr_unchanged line Hline). reflexivity. }
  rewrite Hsame.
  destruct (build_line from_bytes to_bytes profile line) as [profile'|e];
    [|reflexivity].
  cbn [bind]. apply IH.
Qed.

End LineEnds.

(** ** The further theorems at concrete inputs *)

Lemma identifyLanguage_returns_best_witness :
  exists textProfile,
    utf8_buildTrigramProfile ["the cat"] = Ok textProfile /\
    ("en" = message_line_267 \/
     exists l,
       In l [language "fr" [("le ", one)]; language "en" [("the", one)];
             language "nl" [("cat", one)]] /\
       languageCode l = "en" /\
       ltb zero (score textProfile l) = true /\
       Forall (fun l' => ltb (score textProfile l) (score textProfile l') = false)
              [language "fr" [("le ", one)]; language "en" [("the", one)];
               language "nl" [("cat", one)]]).
Proof.
  eexists. split; [reflexivity|].
  apply (identifyLanguage_returns_best Utf8.from_bytes Utf8.to_bytes message_line_267
           ["the cat"]); reflexivity.
Defined.

Lemma identifyLanguage_ignores_nonpositive_witness :
  utf8_identifyLanguage ["the cat"]
    [language "fr" [("le ", one)]; language "en" [("the", one)];
     language "de" [("der", one)]; language "nl" [("cat", one)]] =
  utf8_identifyLanguage ["the cat"]
    [language "en" [("the", one)]; language "nl" [("cat", one)]].
Proof.
  eapply eq_trans.
  - eapply (identifyLanguage_ignores_nonpositive Utf8.from_bytes Utf8.to_bytes message_line_267
              ["the cat"]).
    reflexivity.
  - reflexivity.
Defined.

Lemma identifyLanguage_rejects_undecodable_witness :
  utf8_identifyLanguage ["the cat"; ("ab" ++ byte 255 ++ "cd")%string]
    [language "en" [("the", one)]] = Throw range_error.
Proof.
  apply (identifyLanguage_rejects_undecodable Utf8.from_bytes Utf8.to_bytes message_line_267
           ["the cat"; ("ab" ++ byte 255 ++ "cd")%string]
           ("ab" ++ byte 255 ++ "cd")%string).
  - right. left. reflexivity.
  - vm_compute. reflexivity.
Defined.

Lemma buildTrigramProfile_line_order_witness :
  utf8_buildTrigramProfile ["the cat"; "sat"; "on the mat"] =
  utf8_buildTrigramProfile ["on the mat"; "the cat"; "sat"].
Proof.
  apply (buildTrigramProfile_line_order Utf8.from_bytes Utf8.to_bytes).
  apply Permutation_sym. apply (Permutation_cons_app ["the cat"; "sat"] []).
  apply Permutation_refl.
Defined.

Lemma identifyLanguage_line_order_witness :
  utf8_identifyLanguage ["the cat"; "sat"] [language "en" [("the", one)]] =
  utf8_identifyLanguage ["sat"; "the cat"] [language "en" [("the", one)]].
Proof.
  apply (identifyLanguage_line_order Utf8.from_bytes Utf8.to_bytes message_line_267).
  apply perm_swap.
Defined.

Lemma buildTrigramProfile_keys_witness :
  exists profile,
    utf8_buildTrigramProfile ["ab"; "cats"] = Ok profile /\
    (contains profile "ts" = true <->
     exists line us i,
       In line ["ab"; "cats"] /\
       Utf8.from_bytes (strip_cr line) = Some us /\
       (3 <= List.length us)%nat /\ (i < List.length us)%nat /\
       Utf8.to_bytes (window us i) = Some "ts" /\
       (1 <= List.length (window us i) <= 3)%nat).
Proof.
  eexists. split; [reflexivity|].
  apply (buildTrigramProfile_keys Utf8.from_bytes Utf8.to_bytes ["ab"; "cats"]).
  reflexivity.
Defined.

Lemma buildTrigramProfile_counts_line_tails_witness :
  exists profile,
    utf8_buildTrigramProfile ["ab"; "cats"] = Ok profile /\
    exists k2 k1,
      Utf8.to_bytes [116; 115]%N = Some k2 /\
      Utf8.to_bytes [115]%N = Some k1 /\
      List.length [116; 115]%N = 2%nat /\ List.length [115]%N = 1%nat /\
      contains profile k2 = true /\ contains profile k1 = true.
Proof.
  eexists. split; [reflexivity|].
  apply (buildTrigramProfile_counts_line_tails Utf8.from_bytes Utf8.to_bytes
           ["ab"; "cats"] _ "cats" [99; 97; 116; 115]%N).
  - reflexivity.
  - right. left. reflexivity.
  - vm_compute. reflexivity.
  - cbn. lia.
Defined.

Lemma buildTrigramProfile_skips_short_line_witness :
  utf8_buildTrigramProfile ["the cat"; "at"; "sat"] =
  utf8_buildTrigramProfile ["the cat"; "sat"].
Proof.
  apply (buildTrigramProfile_skips_short_line Utf8.from_bytes Utf8.to_bytes
           ["the cat"] ["sat"] "at" [97; 116]%N).
  - vm_compute. reflexivity.
  - cbn. lia.
Defined.

Lemma buildTrigramProfile_crlf_witness :
  utf8_buildTrigramProfile [add_cr "the cat"; add_cr "sat"] =
  utf8_buildTrigramProfile ["the cat"; "sat"].
Proof.
  apply (buildTrigramProfile_crlf Utf8.from_bytes Utf8.to_bytes
           ["the cat"; "sat"]).
  repeat constructor.
Defined.
